(** * zlint: the command-line driver and three lints, embedded in Rocq

    The development follows the Go sources:
    - [cmd/zlint/main.go]: [trimmedList], [setLints], [resultsTable.newRT];
    - [lints/lint_subject_postal_without_org.go],
      [lints/lint_ev_valid_time_too_long.go],
      [lints/lint_sub_ca_name_constraints_not_critical.go].

    Go strings are byte sequences and are modelled by [string] (a list of
    8-bit [ascii]); Go maps are [gmap]s, and the unspecified iteration order
    of [range] over a map is an explicit argument of the functions that use
    it; Go [int] values are [Z]. *)

From Stdlib Require Import ZArith NArith Ascii String List Lia Permutation Sorted.
From Stdlib Require Import DecimalString.
From stdpp Require Import base gmap strings list fin_maps sorting.

Local Open Scope Z_scope.

(** ** Package [strings] of the Go library: [Split], [Count], [Join],
    [TrimSpace] *)
Module GoStrings.


(** [strings.Split(s, sep)] for a separator of one byte: the substrings
    between the occurrences of [sep], in order.  The segment that is being
    read is the head of the result of the recursive call. *)
Fixpoint Split (s : string) (sep : ascii) : list string :=
  match s with
  | EmptyString => [EmptyString]
  | String c s' =>
      if Ascii.eqb c sep then EmptyString :: Split s' sep
      else match Split s' sep with
           | seg :: segs => String c seg :: segs
           | [] => [String c EmptyString]
           end
  end.

(** [strings.Join(elems, sep)] for a separator of one byte. *)
Fixpoint Join (elems : list string) (sep : ascii) : string :=
  match elems with
  | [] => EmptyString
  | [e] => e
  | e :: es => e +:+ String sep (Join es sep)
  end.

(** [strings.Contains(s, sep)] for one byte. *)
Fixpoint ContainsByte (s : string) (b : ascii) : bool :=
  match s with
  | EmptyString => false
  | String c s' => Ascii.eqb c b || ContainsByte s' b
  end.

(** [utf8.RuneSelf]: bytes below it are single-byte runes. *)
Definition RuneSelf : N := 128.

Definition isRuneSelf (c : ascii) : bool := (RuneSelf <=? N_of_ascii c)%N.

(** The table [asciiSpace] of package strings:
    tab, newline, vertical tab, form feed, carriage return, space. *)
Definition asciiSpace (c : ascii) : bool :=
  let n := N_of_ascii c in
  ((9 <=? n) && (n <=? 13) || (n =? 32))%N.

Fixpoint rev (s : string) : string :=
  match s with
  | EmptyString => EmptyString
  | String c s' => rev s' +:+ String c EmptyString
  end.

(** Predicates used to state what [TrimSpace] returns. *)
Fixpoint isASCII (s : string) : bool :=
  match s with
  | EmptyString => true
  | String c s' => negb (isRuneSelf c) && isASCII s'
  end.

Fixpoint allSpace (s : string) : bool :=
  match s with
  | EmptyString => true
  | String c s' => asciiSpace c && allSpace s'
  end.

Definition firstByte (s : string) : option ascii :=
  match s with
  | EmptyString => None
  | String c _ => Some c
  end.

Definition lastByte (s : string) : option ascii := firstByte (rev s).

(** [t] is [s] without its leading and trailing ASCII white space. *)
Definition Trimmed (s t : string) : Prop :=
  exists pre post,
    s = pre +:+ t +:+ post
    /\ allSpace pre = true /\ allSpace post = true
    /\ (forall c, firstByte t = Some c -> asciiSpace c = false)
    /\ (forall c, lastByte t = Some c -> asciiSpace c = false).

Section TrimSpace.
(** The Unicode-aware slow path of [TrimSpace], taken when a byte
    [>= RuneSelf] is met: [TrimFunc(s, unicode.IsSpace)] and
    [TrimRightFunc(s, unicode.IsSpace)].  They need the UTF-8 decoder and
    the Unicode tables and stay abstract. *)
Variable TrimFunc_IsSpace : string -> string.
Variable TrimRightFunc_IsSpace : string -> string.

(** The second loop of [TrimSpace]: [stop] walks down from [len(s)].  The
    argument is [s[start:stop]] reversed, so that [s[stop-1]] is its head. *)
Fixpoint trim_stop (r : string) : string :=
  match r with
  | EmptyString => EmptyString
  | String c r' =>
      if isRuneSelf c then TrimRightFunc_IsSpace (rev r)
      else if asciiSpace c then trim_stop r'
      else rev r
  end.

(** [strings.TrimSpace]: the first loop moves [start] up over ASCII white
    space, then the second loop moves [stop] down. *)
Fixpoint TrimSpace (s : string) : string :=
  match s with
  | EmptyString => trim_stop (rev s)
  | String c s' =>
      if isRuneSelf c then TrimFunc_IsSpace s
      else if asciiSpace c then TrimSpace s'
      else trim_stop (rev s)
  end.
End TrimSpace.

End GoStrings.

(** ** Package [time] of the Go library: [Date], [AddDate], [Before]

    A [Time] is an instant: the seconds elapsed since January 1, year 1,
    00:00:00 UTC (the epoch of Go's wall clock) and the nanoseconds within
    the second.  Certificates carry UTC times, so the location is UTC. *)
Module GoTime.

Record Time := { sec : Z; nsec : Z }.

Definition secondsPerDay : Z := 86400.
Definition daysPer400Years : Z := 365 * 400 + 97.
Definition daysPer100Years : Z := 365 * 100 + 24.
Definition daysPer4Years : Z := 365 * 4 + 1.

Definition isLeap (year : Z) : bool :=
  (year mod 4 =? 0) && (negb (year mod 100 =? 0) || (year mod 400 =? 0)).

(** [daysBefore[m]]: the days of a non-leap year before month [m+1]. *)
Definition daysBefore (m : Z) : Z :=
  nth (Z.to_nat m) [0; 31; 59; 90; 120; 151; 181; 212; 243; 273; 304; 334; 365] 0.

(** Days from January 1 of year 1 to January 1 of [year]. *)
Definition daysSinceEpoch (year : Z) : Z :=
  let y := year - 1 in
  365 * y + y / 4 - y / 100 + y / 400.

(** [time.Date(year, month, day, hour, min, sec, nsec, time.UTC)]: the
    month is normalised into the year (October 13 months later is November
    of the next year), and a day, hour, minute, second or nanosecond out of
    range overflows into the next unit (October 32 is November 1).
    [dayNumber] is the number of the day, counted from the epoch. *)
Definition dayNumber (year month day : Z) : Z :=
  let m := month - 1 in
  let year := year + m / 12 in
  let m := m mod 12 in
  let month := m + 1 in
  daysSinceEpoch year + daysBefore (month - 1)
  + (if isLeap year && (3 <=? month) then 1 else 0)
  + (day - 1).

Definition Date (year month day hour min sec nsec : Z) : Time :=
  let s := sec + nsec / 1000000000 in
  let nsec := nsec mod 1000000000 in
  {| GoTime.sec := dayNumber year month day * secondsPerDay
                   + hour * 3600 + min * 60 + s;
     GoTime.nsec := nsec |}.


(** [absDate]: year, month and day of the [d]-th day after the epoch, by
    400-, 100-, 4- and 1-year cycles as the library does. *)
Definition absDate (d : Z) : Z * Z * Z :=
  let n400 := d / daysPer400Years in
  let d := d - daysPer400Years * n400 in
  let n100 := d / daysPer100Years in
  let n100 := n100 - Z.shiftr n100 2 in
  let d := d - daysPer100Years * n100 in
  let n4 := d / daysPer4Years in
  let d := d - daysPer4Years * n4 in
  let n1 := d / 365 in
  let n1 := n1 - Z.shiftr n1 2 in
  let d := d - 365 * n1 in
  let year := 400 * n400 + 100 * n100 + 4 * n4 + n1 + 1 in
  let yday := d in
  if isLeap year && (yday =? 31 + 29 - 1) then (year, 2, 29)
  else
    let day := if isLeap year && (31 + 29 - 1 <? yday) then yday - 1 else yday in
    let month := day / 31 in
    let e := daysBefore (month + 1) in
    let '(month, begin) :=
      if e <=? day then (month + 1, e) else (month, daysBefore month) in
    (year, month + 1, day - begin + 1).

(** [t.Date()] and [t.Clock()]. *)
Definition dateOf (t : Time) : Z * Z * Z := absDate (sec t / secondsPerDay).

Definition clockOf (t : Time) : Z * Z * Z :=
  let s := sec t mod secondsPerDay in
  (s / 3600, (s mod 3600) / 60, s mod 60).

(** [t.AddDate(years, months, days)]. *)
Definition AddDate (t : Time) (years months days : Z) : Time :=
  let '(year, month, day) := dateOf t in
  let '(hour, min, s) := clockOf t in
  Date (year + years) (month + months) (day + days) hour min s (nsec t).

(** [t.Before(u)]. *)
Definition Before (t u : Time) : bool :=
  (sec t <? sec u) || ((sec t =? sec u) && (nsec t <? nsec u)).

End GoTime.

(** ** What a Go call can do besides returning a value *)
Module GoRuntime.

(** A value of type [error]: [None] is [nil], [Some msg] an error whose
    [Error()] text is [msg]. *)
Definition error : Type := option string.

(** The outcome of a call: it returns, it panics (a nil pointer is
    dereferenced), or the process is ended by [log.Fatalf]. *)
Inductive exec (A : Type) : Type :=
| Returns (a : A)
| Panics (reason : string)
| Exits (logged : string).
Arguments Returns {A} a.
Arguments Panics {A} reason.
Arguments Exits {A} logged.

(** One statement of a function body that may leave the function early:
    go on with a new state, [return r], or [log.Fatalf]. *)
Inductive step (S R : Type) : Type :=
| Continue (s : S)
| Return (r : R)
| Fatalf (logged : string).
Arguments Continue {S R} s.
Arguments Return {S R} r.
Arguments Fatalf {S R} logged.

Definition andThen {S S' R} (x : step S R) (k : S -> step S' R) : step S' R :=
  match x with
  | Continue s => k s
  | Return r => Return r
  | Fatalf m => Fatalf m
  end.

(** The body is over: only [return] and [log.Fatalf] end a function that
    has a result. *)
Definition body {R} (x : step R R) : exec R :=
  match x with
  | Continue r => Returns r
  | Return r => Returns r
  | Fatalf m => Exits m
  end.

End GoRuntime.

Notation "x >>> k" := (GoRuntime.andThen x k)
  (at level 61, left associativity, only parsing).

(** ** Package [x509]: what a parsed certificate exposes

    Modelled from the spec: the certificate type belongs to the X.509
    library; the engine consumes "subject/issuer name components, extension
    list (by identifier, with critical flag and raw value), validity period
    (notBefore/notAfter), policy identifiers". *)
Module x509.

Definition ObjectIdentifier : Type := list Z.

Record AttributeTypeAndValue := { Type_ : ObjectIdentifier; Value : string }.

Record Name := { Names : list AttributeTypeAndValue }.

Record Extension := { Id : ObjectIdentifier; Critical : bool; ExtValue : string }.

Record Certificate := {
  Subject : Name;
  Extensions : list Extension;
  NotBefore : GoTime.Time;
  NotAfter : GoTime.Time;
  PolicyIdentifiers : list ObjectIdentifier;
  (* the outcome of the library's classification of the certificate: a CA
     certificate that is not self-signed *)
  SubordinateCA : bool
}.

Definition oid_eqb (a b : ObjectIdentifier) : bool := bool_decide (a = b).

End x509.

(** ** Package [lints]: the three rules of [src/lints] *)
Module lints.
Import GoRuntime x509.

(** Modelled from the spec: the severity enumeration of package [lints] is
    not among the sources; the spec lists "{Reserved, Unknown, Fatal(parse
    error), Pass, Informational/NA, Notice, Warn, Error}".  The rules below
    build [Pass], [Warn] and [Error]. *)
Inductive ResultEnum : Type :=
| Reserved | Unknown | Fatal | Pass | Info | Notice | Warn | Error.

(** [ResultStruct{Result: ...}]. *)
Record ResultStruct := { Result : ResultEnum }.

Section Rules.
(** The helpers of package [util], which is not among the sources. *)
Variable TypeInName : Name -> ObjectIdentifier -> bool.
Variable IsEv : list ObjectIdentifier -> bool.
Variable IsSubCA : Certificate -> bool.
Variable IsExtInCert : Certificate -> ObjectIdentifier -> bool.
(** [GetExtFromCert] returns a pointer to the extension: [None] is [nil]. *)
Variable GetExtFromCert : Certificate -> ObjectIdentifier -> option Extension.
Variables PostalCodeOID OrganizationNameOID NameConstOID : ObjectIdentifier.

(** *** [lint_subject_postal_without_org.go] *)
Definition postalNoOrg_Initialize : error := None.

Definition postalNoOrg_CheckApplies (cert : Certificate) : bool := true.

Definition postalNoOrg_RunTest (cert : Certificate) : ResultStruct * error :=
  if TypeInName (Subject cert) PostalCodeOID
     && negb (TypeInName (Subject cert) OrganizationNameOID)
  then ({| Result := Error |}, None)
  else ({| Result := Pass |}, None).

(** *** [lint_ev_valid_time_too_long.go] *)
Definition evValidTooLong_Initialize : error := None.


Definition evValidTooLong_RunTest (c : Certificate) : ResultStruct * error :=
  if GoTime.Before (GoTime.AddDate (NotBefore c) 2 3 0) (NotAfter c)
  then ({| Result := Error |}, None)
  else ({| Result := Pass |}, None).

(** *** [lint_sub_ca_name_constraints_not_critical.go] *)
Definition SubCANameConstraintsNotCritical_Initialize : error := None.

Definition SubCANameConstraintsNotCritical_CheckApplies (cert : Certificate) : bool :=
  IsSubCA cert && IsExtInCert cert NameConstOID.

(** [ski.Critical] reads through the pointer that [GetExtFromCert]
    returned: on [nil] the call panics. *)
Definition SubCANameConstraintsNotCritical_RunTest (cert : Certificate)
  : exec (ResultStruct * error) :=
  match GetExtFromCert cert NameConstOID with
  | Some ski =>
      if Critical ski then Returns ({| Result := Pass |}, None)
      else Returns ({| Result := Warn |}, None)
  | None => Panics "invalid memory address or nil pointer dereference"
  end.

End Rules.
End lints.

(** ** Package [util]: the helpers the rules call *)
Module util.
Import x509.

(** Modelled from the spec: [util.TypeInName] is not among the sources.  A
    subject "with a postalCode attribute" is a name one of whose components
    has that attribute type. *)
Definition TypeInName (name : Name) (oid : ObjectIdentifier) : bool :=
  existsb (fun v => oid_eqb oid (Type_ v)) (Names name).

(** Modelled from the spec: [util.GetExtFromCert] is not among the sources.
    The certificate exposes its "extension list (by identifier, with
    critical flag and raw value)"; the lookup by identifier gives the first
    extension with that identifier, and [nil] when there is none. *)
Definition GetExtFromCert (cert : Certificate) (oid : ObjectIdentifier)
  : option Extension :=
  find (fun e => oid_eqb oid (Id e)) (Extensions cert).

(** Modelled from the spec: [util.IsExtInCert] is not among the sources.  A
    certificate "containing a given extension" is one in which the lookup
    by identifier finds it. *)
Definition IsExtInCert (cert : Certificate) (oid : ObjectIdentifier) : bool :=
  match GetExtFromCert cert oid with Some _ => true | None => false end.

(** Modelled from the spec: [util.IsSubCA] is not among the sources; it is
    the "is this a CA certificate" classification of the certificate. *)
Definition IsSubCA (cert : Certificate) : bool := SubordinateCA cert.


(** The attribute types and the extension identifier, as X.520 and RFC 5280
    number them. *)
Definition PostalCodeOID : ObjectIdentifier := [2; 5; 4; 17].
Definition OrganizationNameOID : ObjectIdentifier := [2; 5; 4; 10].
Definition NameConstOID : ObjectIdentifier := [2; 5; 29; 30].

End util.

(** ** Iterating over a Go map

    [for k, v := range m] visits every entry of [m] once, in an order the
    language leaves unspecified and the runtime varies from one loop to the
    next.  A [RangeOrder] is one such choice: it rearranges the entries. *)
Module GoMap.

Record RangeOrder := {
  visit : forall A : Type, list A -> list A;
  visit_perm : forall (A : Type) (l : list A), visit A l ≡ₚ l
}.

(** The entries of [m] in the order in which a loop with order [o] sees
    them. *)
Definition range {K A} `{Countable K} (o : RangeOrder) (m : gmap K A)
  : list (K * A) :=
  visit o _ (map_to_list m).

(** Two orders: the one of [map_to_list], and its reverse. *)
Definition forwards : RangeOrder :=
  {| visit := fun _ l => l; visit_perm := fun _ l => reflexivity l |}.

Definition backwards : RangeOrder :=
  {| visit := fun _ l => reverse l; visit_perm := fun _ l => reverse_Permutation l |}.

(** [m[k]] for a key that may be absent: the zero value of the element
    type. *)
Definition index {K A} `{Countable K} (zero : A) (m : gmap K A) (k : K) : A :=
  default zero (m !! k).

End GoMap.

(** ** Go's [int], 64 bits wide *)
Module GoInt.

Definition wrap (z : Z) : Z := (z + 2 ^ 63) mod 2 ^ 64 - 2 ^ 63.

(** [x++] *)
Definition incr (x : Z) : Z := wrap (x + 1).

(** [sort.Ints]: the slice in increasing order. *)
Definition sort_Ints (l : list Z) : list Z := merge_sort Z.le l.

End GoInt.

(** ** Package [lint]: statuses, results, the registry and its filter *)
Module lint.
Import GoRuntime.

(** [type LintStatus int] *)
Definition LintStatus : Type := Z.

(** [lint.LintResult] and [zlint.ResultSet]: what [newRT] reads of them. *)
Record LintResult := { Status : LintStatus; Details : string }.

Record ResultSet := { Results : gmap string LintResult }.

(** Modelled from the spec: the registry of package [lint] is not among
    the sources.  It is "a mapping from rule name to Rule Metadata"; of the
    metadata the filter reads the name and the "provenance/source tag". *)
Record Lint := { Name : string; Description : string; Source : string }.

Definition Registry : Type := gmap string Lint.

Section Filter.
(** A compiled regular expression and its [MatchString], of package
    [regexp]. *)
Context {Regexp : Type}.
Variable MatchString : Regexp -> string -> bool.

(** [lint.FilterOptions]; [NameFilter] is a pointer, [None] is [nil]. *)
Record FilterOptions := {
  NameFilter : option Regexp;
  IncludeNames : list string;
  ExcludeNames : list string;
  IncludeSources : list string;
  ExcludeSources : list string
}.

Definition noFilterOptions : FilterOptions :=
  {| NameFilter := None; IncludeNames := []; ExcludeNames := [];
     IncludeSources := []; ExcludeSources := [] |}.

Definition inList (x : string) (l : list string) : bool :=
  existsb (String.eqb x) l.

Definition isEmpty {A} (l : list A) : bool :=
  match l with [] => true | _ => false end.

(** Steps 2a-2d of the selection: start from "keep all"; a non-empty
    include-name list keeps only its names, a non-empty include-source set
    only its sources; then excluded names and excluded sources go. *)
Definition keptByLists (opts : FilterOptions) (l : Lint) : bool :=
  (isEmpty (IncludeNames opts) || inList (Name l) (IncludeNames opts))
  && (isEmpty (IncludeSources opts) || inList (Source l) (IncludeSources opts))
  && negb (inList (Name l) (ExcludeNames opts))
  && negb (inList (Source l) (ExcludeSources opts)).

Definition errConflictingFilters : string :=
  "a name filter cannot be used together with include or exclude name lists".

(** Modelled from the spec: [Registry.Filter] is not among the sources.
    "If a name filter (regular expression) is set: keep rule iff name
    matches; this mode is mutually exclusive with include/exclude name lists
    (configuration error if both supplied).  Else, start from keep all, then
    (a)-(d)."  The result is a new registry; the original is untouched. *)
Definition Filter (r : Registry) (opts : FilterOptions)
  : option Registry * error :=
  match NameFilter opts with
  | Some re =>
      if isEmpty (IncludeNames opts) && isEmpty (ExcludeNames opts)
      then (Some (filter (fun kv => MatchString re (Name kv.2) = true) r), None)
      else (None, Some errConflictingFilters)
  | None =>
      (Some (filter (fun kv => keptByLists opts kv.2 = true) r), None)
  end.

End Filter.
Arguments FilterOptions Regexp : clear implicits.

End lint.

(** ** Package [unicode/utf8]: where the runes of a string begin *)
Module GoUtf8.

Definition byteIn (lo hi : N) (c : ascii) : bool :=
  ((lo <=? N_of_ascii c) && (N_of_ascii c <=? hi))%N.

(** [acceptRanges]: the second bytes that a first byte accepts. *)
Definition acceptRange (b0 : N) : N * N :=
  (if b0 =? 224 then (160, 191)
   else if b0 =? 237 then (128, 159)
   else if b0 =? 240 then (144, 191)
   else if b0 =? 244 then (128, 143)
   else (128, 191))%N.

(** The number of bytes that the table [first] tells to read for a first
    byte: 1 for ASCII and for the bytes that start no sequence. *)
Definition sequenceLength (b0 : N) : nat :=
  if (b0 <? 194)%N then 1%nat
  else if (b0 <=? 223)%N then 2%nat
  else if (b0 <=? 239)%N then 3%nat
  else if (b0 <=? 244)%N then 4%nat
  else 1%nat.

(** The width of the first rune of [s], as [utf8.DecodeRuneInString] and
    [range] over a string give it: a sequence that is cut short or has a
    byte out of range counts as one rune of width 1 ([RuneError]). *)
Definition runeWidth (s : string) : nat :=
  match s with
  | EmptyString => 0%nat
  | String b0 rest =>
      let n := N_of_ascii b0 in
      let '(lo, hi) := acceptRange n in
      match sequenceLength n, rest with
      | 2%nat, String b1 _ => if byteIn lo hi b1 then 2%nat else 1%nat
      | 3%nat, String b1 (String b2 _) =>
          if byteIn lo hi b1 && byteIn 128 191 b2 then 3%nat else 1%nat
      | 4%nat, String b1 (String b2 (String b3 _)) =>
          if byteIn lo hi b1 && byteIn 128 191 b2 && byteIn 128 191 b3
          then 4%nat else 1%nat
      | _, _ => 1%nat
      end
  end.

(** [s[:n]] and [s[n:]], for [n] up to [len(s)]. *)
Fixpoint takeBytes (n : nat) (s : string) : string :=
  match n, s with
  | S n', String c s' => String c (takeBytes n' s')
  | _, _ => EmptyString
  end.

Fixpoint dropBytes (n : nat) (s : string) : string :=
  match n, s with
  | S n', String _ s' => dropBytes n' s'
  | _, _ => s
  end.

(** The runes of [s], each as the bytes that encode it.  A rune takes at
    least one byte, so [len(s)] steps reach the end. *)
Fixpoint runesFrom (steps : nat) (s : string) : list string :=
  match steps, s with
  | S steps', String _ _ =>
      takeBytes (runeWidth s) s :: runesFrom steps' (dropBytes (runeWidth s) s)
  | _, _ => []
  end.

Definition runes (s : string) : list string := runesFrom (String.length s) s.

(** [utf8.RuneCountInString] *)
Definition RuneCountInString (s : string) : Z := Z.of_nat (length (runes s)).

End GoUtf8.

(** ** Packages [strings], [strconv] and [fmt]: what the summary table
    uses *)
Module GoText.
Import GoStrings GoUtf8.

(** [strings.Repeat(s, count)] for a count that is not negative. *)
Fixpoint Repeat (s : string) (count : nat) : string :=
  match count with
  | O => EmptyString
  | S count' => s +:+ Repeat s count'
  end.

Fixpoint mapBytes (f : ascii -> ascii) (s : string) : string :=
  match s with
  | EmptyString => EmptyString
  | String c s' => String (f c) (mapBytes f s')
  end.

(** [c - ('a' - 'A')] for a lower-case letter. *)
Definition upperByte (c : ascii) : ascii :=
  let n := N_of_ascii c in
  if ((97 <=? n) && (n <=? 122))%N then ascii_of_N (n - 32) else c.

Section ToUpper.
(** [strings.Map(unicode.ToUpper, s)], the path of [ToUpper] for a string
    with a byte [>= RuneSelf]; it needs the Unicode tables and stays
    abstract. *)
Variable Map_ToUpper : string -> string.

(** [strings.ToUpper]: byte by byte on a string of ASCII bytes. *)
Definition ToUpper (s : string) : string :=
  if isASCII s then mapBytes upperByte s else Map_ToUpper s.
End ToUpper.

(** The strings of printable ASCII bytes (space to tilde), and a line of
    text of a given width: printable bytes, then a newline. *)
Definition printableByte (c : ascii) : bool :=
  ((32 <=? N_of_ascii c) && (N_of_ascii c <=? 126))%N.

Fixpoint isPrintable (s : string) : bool :=
  match s with
  | EmptyString => true
  | String c s' => printableByte c && isPrintable s'
  end.

Definition isTextLine (width : nat) (line : string) : Prop :=
  exists text,
    line = text +:+ String "010" ""
    /\ isPrintable text = true /\ String.length text = width.

(** [strconv.Itoa] *)
Definition Itoa (i : Z) : string := NilZero.string_of_int (Z.to_int i).

Definition joinAll (parts : list string) : string :=
  fold_right String.append EmptyString parts.

(** The verb [%s] with a precision: at most [prec] runes of [s]. *)
Definition truncateString (prec : nat) (s : string) : string :=
  joinAll (take prec (runes s)).

(** The verb [%s] with a width and no flag: blanks on the left up to [wid]
    runes. *)
Definition padString (wid : nat) (s : string) : string :=
  Repeat " " (wid - length (runes s)) +:+ s.

(** [fmt.Sprintf("%<wid>.<prec>s", s)] *)
Definition Sprintf_s (wid prec : nat) (s : string) : string :=
  padString wid (truncateString prec s).

End GoText.

(** ** Package [main]: [cmd/zlint/main.go] *)
Module main.
Import GoRuntime GoMap GoInt GoStrings lint.

(** The flags that [setLints] reads (package-level variables set by
    [flag.Parse]). *)
Record Flags := {
  nameFilter : string;
  includeNames : string;
  excludeNames : string;
  includeSources : string;
  excludeSources : string
}.

Record resultsTable := {
  resultCount : gmap LintStatus Z;
  resultDetails : gmap LintStatus (list string);
  lintLevelsAboveThreshold : gmap Z LintStatus;
  sortedLevels : list Z
}.

(** [resultsTable{}] *)
Definition emptyTable : resultsTable :=
  {| resultCount := ∅; resultDetails := ∅; lintLevelsAboveThreshold := ∅;
     sortedLevels := [] |}.

(** The order of each of the four [range] loops over a map in [newRT]. *)
Record RangeOrders := {
  labelsOrder : RangeOrder;
  levelsOrder : RangeOrder;
  resultsOrder : RangeOrder;
  countsOrder : RangeOrder
}.

Definition isSet (flagValue : string) : bool := negb (String.eqb flagValue "").

Section Main.
(** The slow path of [strings.TrimSpace]. *)
Variable TrimFunc_IsSpace : string -> string.
Variable TrimRightFunc_IsSpace : string -> string.
(** Package [regexp]: [Compile] gives the compiled expression or the text
    of the syntax error. *)
Context {Regexp : Type}.
Variable regexp_Compile : string -> Regexp + string.
Variable MatchString : Regexp -> string -> bool.
(** [SourceList.FromString] of package [lint]: the list of sources, or the
    text of the error for a source it does not know. *)
Variable SourceList_FromString : string -> list string + string.
(** [lint.GlobalRegistry()] *)
Variable GlobalRegistry : Registry.
(** [lint.StatusLabelToLintStatus]: the enumeration of the statuses, from
    label to status; and [lint.Pass]. *)
Variable StatusLabelToLintStatus : gmap string LintStatus.
Variable Pass : LintStatus.

Local Abbreviation TrimSpace :=
  (GoStrings.TrimSpace TrimFunc_IsSpace TrimRightFunc_IsSpace).

(** [trimmedList]: [list] starts as the nil slice and grows by [append]. *)
Definition trimmedList (raw : string) : list string :=
  fold_left (fun list item => list ++ [TrimSpace item]) (Split raw ",") [].

(** *** [setLints]: one definition for each [if] of the body *)
Definition setNameFilter (fl : Flags) (filterOpts : FilterOptions Regexp)
  : step (FilterOptions Regexp) (option Registry * error) :=
  if isSet (nameFilter fl) then
    match regexp_Compile (nameFilter fl) with
    | inr err => Return (None, Some ("bad -nameFilter: " +:+ err))
    | inl r =>
        Continue {| NameFilter := Some r;
                    IncludeNames := IncludeNames filterOpts;
                    ExcludeNames := ExcludeNames filterOpts;
                    IncludeSources := IncludeSources filterOpts;
                    ExcludeSources := ExcludeSources filterOpts |}
    end
  else Continue filterOpts.

Definition setExcludeSources (fl : Flags) (filterOpts : FilterOptions Regexp)
  : step (FilterOptions Regexp) (option Registry * error) :=
  if isSet (excludeSources fl) then
    match SourceList_FromString (excludeSources fl) with
    | inr err => Fatalf ("invalid -excludeSources: " +:+ err)
    | inl l =>
        Continue {| NameFilter := NameFilter filterOpts;
                    IncludeNames := IncludeNames filterOpts;
                    ExcludeNames := ExcludeNames filterOpts;
                    IncludeSources := IncludeSources filterOpts;
                    ExcludeSources := l |}
    end
  else Continue filterOpts.

Definition setIncludeSources (fl : Flags) (filterOpts : FilterOptions Regexp)
  : step (FilterOptions Regexp) (option Registry * error) :=
  if isSet (includeSources fl) then
    match SourceList_FromString (includeSources fl) with
    | inr err => Fatalf ("invalid -includeSources: " +:+ err +:+ String "010" "")
    | inl l =>
        Continue {| NameFilter := NameFilter filterOpts;
                    IncludeNames := IncludeNames filterOpts;
                    ExcludeNames := ExcludeNames filterOpts;
                    IncludeSources := l;
                    ExcludeSources := ExcludeSources filterOpts |}
    end
  else Continue filterOpts.

Definition setExcludeNames (fl : Flags) (filterOpts : FilterOptions Regexp)
  : step (FilterOptions Regexp) (option Registry * error) :=
  if isSet (excludeNames fl) then
    Continue {| NameFilter := NameFilter filterOpts;
                IncludeNames := IncludeNames filterOpts;
                ExcludeNames := trimmedList (excludeNames fl);
                IncludeSources := IncludeSources filterOpts;
                ExcludeSources := ExcludeSources filterOpts |}
  else Continue filterOpts.

Definition setIncludeNames (fl : Flags) (filterOpts : FilterOptions Regexp)
  : step (FilterOptions Regexp) (option Registry * error) :=
  if isSet (includeNames fl) then
    Continue {| NameFilter := NameFilter filterOpts;
                IncludeNames := trimmedList (includeNames fl);
                ExcludeNames := ExcludeNames filterOpts;
                IncludeSources := IncludeSources filterOpts;
                ExcludeSources := ExcludeSources filterOpts |}
  else Continue filterOpts.

(** [setLints]: the pair it returns is (registry, error), [None] for
    [nil]. *)
Definition setLints (fl : Flags) : exec (option Registry * error) :=
  if negb (isSet (nameFilter fl)) && negb (isSet (includeNames fl))
     && negb (isSet (excludeNames fl)) && negb (isSet (includeSources fl))
     && negb (isSet (excludeSources fl))
  then Returns (Some GlobalRegistry, None)
  else
    body (Continue noFilterOptions
          >>> setNameFilter fl
          >>> setExcludeSources fl
          >>> setIncludeSources fl
          >>> setExcludeNames fl
          >>> setIncludeNames fl
          >>> (fun filterOpts => Return (Filter MatchString GlobalRegistry filterOpts))).

(** *** [resultsTable.newRT]: one definition for each loop *)

(** "Make the list of lint levels that matter". *)
Definition levelsAbove (threshold : LintStatus)
  (entries : list (string * LintStatus)) (levels : gmap Z LintStatus)
  : gmap Z LintStatus :=
  fold_left (fun levels e =>
               let i := e.2 in
               if i <=? threshold then levels else <[i := i]> levels)
            entries levels.

(** "Set all of the levels to 0 events". *)
Definition zeroCounts (entries : list (Z * LintStatus))
  (counts : gmap LintStatus Z) : gmap LintStatus Z :=
  fold_left (fun counts e => <[e.2 := 0]> counts) entries counts.

(** "Count up the number of each event". *)
Definition countEvents (threshold : LintStatus) (longSummary : bool)
  (entries : list (string * LintResult))
  (tables : gmap LintStatus Z * gmap LintStatus (list string))
  : gmap LintStatus Z * gmap LintStatus (list string) :=
  fold_left (fun tables e =>
               let lintName := e.1 in
               let lintResult := e.2 in
               let counts := tables.1 in
               let details := tables.2 in
               if threshold <? Status lintResult then
                 (<[Status lintResult := incr (index 0 counts (Status lintResult))]> counts,
                  if longSummary then
                    <[Status lintResult :=
                        index [] details (Status lintResult) ++ [lintName]]> details
                  else details)
               else tables)
            entries tables.

(** "Sort the levels we have": the keys are appended, then sorted. *)
Definition collectLevels (entries : list (LintStatus * Z)) (levels : list Z)
  : list Z :=
  fold_left (fun levels e => levels ++ [e.1]) entries levels.

Definition newRT (ord : RangeOrders) (r : resultsTable) (threshold : LintStatus)
  (results : ResultSet) (longSummary : bool) : resultsTable :=
  let levels :=
    levelsAbove threshold (range (labelsOrder ord) StatusLabelToLintStatus) ∅ in
  let counts := zeroCounts (range (levelsOrder ord) levels) ∅ in
  let tables :=
    countEvents threshold longSummary
      (range (resultsOrder ord) (Results results)) (counts, ∅) in
  let sorted :=
    sort_Ints (collectLevels (range (countsOrder ord) tables.1) (sortedLevels r)) in
  {| resultCount := tables.1;
     resultDetails := tables.2;
     lintLevelsAboveThreshold := levels;
     sortedLevels := sorted |}.

(** The statuses of the enumeration, and how many results of a set have a
    given status: the words in which the properties of [newRT] are stated. *)
Definition isLevel (s : LintStatus) : Prop :=
  exists label, StatusLabelToLintStatus !! label = Some s.

Definition withStatus (s : LintStatus) (entries : list (string * LintResult))
  : list (string * LintResult) :=
  filter (fun e => Status e.2 = s) entries.

Definition occurrences (results : ResultSet) (s : LintStatus) : nat :=
  length (withStatus s (map_to_list (Results results))).

(** The table that [outputSummary] prints. *)
Definition outputSummary_table (ord : RangeOrders) (zlintResult : ResultSet)
  (longSummary : bool) : resultsTable :=
  newRT ord emptyTable Pass zlintResult longSummary.

(** *** [printTableHeadings], [printTableBody], [outputSummary]

    What is written to the standard output is the first component of the
    results. *)

(** [LintStatus.String()] of package [lint], which [%s] calls. *)
Variable LintStatus_String : LintStatus -> string.
(** The path of [strings.ToUpper] for a string that is not ASCII. *)
Variable Map_ToUpper : string -> string.
(** What [fmt.Printf] writes for the format that [printTableBody] builds
    from a width that is negative or above the 1000000 to which [fmt]
    limits the numbers of a format. *)
Variable Printf_oddWidth : Z -> string -> string.

Local Abbreviation ToUpper := (GoText.ToUpper Map_ToUpper).

(** The inner loop of [printTableHeadings]: [n] is [len(headings)].
    [j + 1] is positive there, so [strings.Repeat] does not panic. *)
Fixpoint ruleLine (n : Z) (ii : Z) (hlengths : list Z) : string :=
  match hlengths with
  | [] => EmptyString
  | j :: rest =>
      "+" +:+ GoText.Repeat "-" (Z.to_nat (j + 1))
      +:+ (if ii =? n - 1 then "+" +:+ String "010" "" else "")
      +:+ ruleLine n (ii + 1) rest
  end.

(** The outer loop, from index [i] on, with the widths gathered so far. *)
Fixpoint headingsLoop (n : Z) (i : Z) (hlengths : list Z)
  (headings : list string) : string * list Z :=
  match headings with
  | [] => (EmptyString, hlengths)
  | h :: rest =>
      let hlengths := hlengths ++ [GoUtf8.RuneCountInString h + 1] in
      let out :=
        "| " +:+ ToUpper h +:+ " "
        +:+ (if i =? n - 1 then "|" +:+ String "010" "" +:+ ruleLine n 0 hlengths
             else "") in
      let '(out', hlengths') := headingsLoop n (i + 1) hlengths rest in
      (out +:+ out', hlengths')
  end.

Definition printTableHeadings (headings : list string) : string * list Z :=
  headingsLoop (Z.of_nat (length headings)) 0 [] headings.

(** [fmt.Printf(fmt.Sprintf("|%%%[1]d.%[1]ds", hlen), cell)] *)
Definition Printf_cell (hlen : Z) (cell : string) : string :=
  if (0 <=? hlen) && (hlen <=? 1000000)
  then "|" +:+ GoText.Sprintf_s (Z.to_nat hlen) (Z.to_nat hlen) cell
  else Printf_oddWidth hlen cell.

(** The inner loop of [printTableBody], from index [i] on: [line[i]]
    panics when the line has no cell [i]. *)
Fixpoint printCells (n : Z) (line : list string) (i : Z) (hlengths : list Z)
  : string * exec unit :=
  match hlengths with
  | [] => (EmptyString, Returns tt)
  | hlen :: rest =>
      match line !! Z.to_nat i with
      | None => (EmptyString, Panics "index out of range")
      | Some cell =>
          let '(out, r) := printCells n line (i + 1) rest in
          (Printf_cell hlen cell
           +:+ (if i =? n - 1 then " |" +:+ String "010" "" else " ")
           +:+ out, r)
      end
  end.

Fixpoint printTableBody (hlengths : list Z) (lines : list (list string))
  : string * exec unit :=
  match lines with
  | [] => (EmptyString, Returns tt)
  | line :: rest =>
      match printCells (Z.of_nat (length hlengths)) line 0 hlengths with
      | (out, Returns _) =>
          let '(out', r) := printTableBody hlengths rest in (out +:+ out', r)
      | (out, r) => (out, r)
      end
  end.

(** The variables of the loops of [outputSummary] in the long form. *)
Record summaryState := {
  olsl : string;
  lsl : string;
  rescount : string;
  lines : list (list string)
}.

(** One turn of the loop over the details of [level]; the second component
    is [foundDetail]. *)
Definition detailStep (rt : resultsTable) (level : Z)
  (acc : summaryState * bool) (detail : string) : summaryState * bool :=
  let st := acc.1 in
  let st :=
    if negb (String.eqb (LintStatus_String level) (olsl st)) then
      {| olsl := LintStatus_String level;
         lsl := LintStatus_String level;
         rescount := GoText.Itoa (index 0 (resultCount rt) level);
         lines := lines st |}
    else
      {| olsl := olsl st; lsl := ""; rescount := ""; lines := lines st |} in
  ({| olsl := olsl st; lsl := lsl st; rescount := rescount st;
      lines := lines st ++ [[lsl st; rescount st; detail]] |}, true).

(** One turn of the loop over [rt.sortedLevels]. *)
Definition levelStep (rt : resultsTable) (st : summaryState) (level : Z)
  : summaryState :=
  let acc :=
    fold_left (detailStep rt level) (index [] (resultDetails rt) level)
      (st, false) in
  if acc.2 then acc.1
  else
    {| olsl := olsl acc.1; lsl := lsl acc.1; rescount := rescount acc.1;
       lines := lines acc.1
                ++ [[LintStatus_String level;
                     GoText.Itoa (index 0 (resultCount rt) level);
                     " - "]] |}.

Definition longLines (rt : resultsTable) : list (list string) :=
  lines (fold_left (levelStep rt) (sortedLevels rt)
           {| olsl := ""; lsl := ""; rescount := ""; lines := [] |}).

Definition shortLines (rt : resultsTable) : list (list string) :=
  fold_left (fun lines level =>
               lines ++ [[LintStatus_String level;
                          GoText.Itoa (index 0 (resultCount rt) level)]])
            (sortedLevels rt) [].

(** The rows of a level in the long form when its label is shown, and the
    cells of its third column: the words in which the properties of the
    lines are stated. *)
Definition blankRow (detail : string) : list string := [""; ""; detail].

Definition levelRows (rt : resultsTable) (level : Z) : list (list string) :=
  match index [] (resultDetails rt) level with
  | [] => [[LintStatus_String level;
            GoText.Itoa (index 0 (resultCount rt) level); " - "]]
  | detail :: details =>
      [LintStatus_String level;
       GoText.Itoa (index 0 (resultCount rt) level); detail]
      :: map blankRow details
  end.

Definition detailCells (rt : resultsTable) (level : Z) : list string :=
  match index [] (resultDetails rt) level with
  | [] => [" - "]
  | details => details
  end.

(** The width of a line of the table for the column widths [hlengths]:
    a bar, the cell and a blank for every column, and the closing bar. *)
Definition tableWidth (hlengths : list Z) : nat :=
  (fold_right (fun hlen w => Z.to_nat hlen + 2 + w) 1 hlengths)%nat.

Definition headingsLong : list string :=
  ["Level"; "# occurrences"; "                      Details                      "].

Definition headingsShort : list string := ["Level"; "# occurrences"].

Definition outputSummary (ord : RangeOrders) (zlintResult : ResultSet)
  (longSummary : bool) : string * exec unit :=
  let rt := outputSummary_table ord zlintResult longSummary in
  if longSummary then
    let '(outH, hlengths) := printTableHeadings headingsLong in
    let '(outB, r) := printTableBody hlengths (longLines rt) in
    (outH +:+ outB, r)
  else
    let '(outH, hlengths) := printTableHeadings headingsShort in
    let '(outB, r) := printTableBody hlengths (shortLines rt) in
    (outH +:+ outB, r).

End Main.
End main.

(** ** Sample inputs, on which the properties below are exercised *)
Module samples.
Import GoRuntime GoMap x509 lint main.

Definition midnight (year month day : Z) : GoTime.Time :=
  GoTime.Date year month day 0 0 0 0.

Definition attribute (oid : ObjectIdentifier) (v : string) : AttributeTypeAndValue :=
  {| Type_ := oid; Value := v |}.

Definition certificate (subject : list AttributeTypeAndValue)
  (exts : list Extension) (notBefore notAfter : GoTime.Time)
  (policies : list ObjectIdentifier) (subCA : bool) : Certificate :=
  {| Subject := {| Names := subject |}; Extensions := exts;
     NotBefore := notBefore; NotAfter := notAfter;
     PolicyIdentifiers := policies; SubordinateCA := subCA |}.

(** A subject with a postal code and no organization; the same with an
    organization; and one with neither. *)
Definition certPostalOnly : Certificate :=
  certificate [attribute [2; 5; 4; 3] "example.com"; attribute util.PostalCodeOID "48109"]
    [] (midnight 2020 1 1) (midnight 2021 1 1) [] false.

Definition certPostalAndOrg : Certificate :=
  certificate [attribute util.OrganizationNameOID "Example"; attribute util.PostalCodeOID "48109"]
    [] (midnight 2020 1 1) (midnight 2021 1 1) [] false.

Definition certNoPostal : Certificate :=
  certificate [attribute [2; 5; 4; 3] "example.com"]
    [] (midnight 2020 1 1) (midnight 2021 1 1) [] false.



(** Subordinate CA certificates whose nameConstraints extension is critical
    and not critical, and a certificate without extensions. *)
Definition nameConstraints (critical : bool) : Extension :=
  {| Id := util.NameConstOID; Critical := critical; ExtValue := "" |}.

Definition certSubCACritical : Certificate :=
  certificate [] [nameConstraints true] (midnight 2020 1 1) (midnight 2021 1 1) [] true.

Definition certSubCANotCritical : Certificate :=
  certificate [] [nameConstraints false] (midnight 2020 1 1) (midnight 2021 1 1) [] true.

Definition certNoExtensions : Certificate :=
  certificate [] [] (midnight 2020 1 1) (midnight 2021 1 1) [] false.

(** A stand-in for [regexp.Compile]: it rejects the patterns whose
    parentheses do not match, as the library does, and keeps the text of the
    others. *)
Fixpoint parenDepth (s : string) (depth : nat) : option nat :=
  match s with
  | EmptyString => Some depth
  | String c s' =>
      if Ascii.eqb c "(" then parenDepth s' (S depth)
      else if Ascii.eqb c ")" then
        match depth with
        | O => None
        | S d => parenDepth s' d
        end
      else parenDepth s' depth
  end.

Definition parenCompile (expr : string) : string + string :=
  match parenDepth expr 0 with
  | Some O => inl expr
  | Some (S _) => inr ("error parsing regexp: missing closing ): `" +:+ expr +:+ "`")
  | None => inr ("error parsing regexp: unexpected ): `" +:+ expr +:+ "`")
  end.

(** A stand-in for [MatchString]: the text occurs in the name. *)
Fixpoint occursIn (re name : string) : bool :=
  String.prefix re name
  || match name with
     | EmptyString => false
     | String _ name' => occursIn re name'
     end.

(** A stand-in for [SourceList.FromString]: every source is known. *)
Definition anySources (raw : string) : list string + string :=
  inl (GoStrings.Split raw ",").

Definition registry : Registry :=
  list_to_map
    [("e_ev_valid_time_too_long",
      {| Name := "e_ev_valid_time_too_long"; Description := ""; Source := "CABF_EV" |});
     ("w_sub_ca_name_constraints_not_critical",
      {| Name := "w_sub_ca_name_constraints_not_critical"; Description := "";
         Source := "CABF_BR" |})].

Definition flagsBadFilter : Flags :=
  {| nameFilter := "e_(ev"; includeNames := ""; excludeNames := "";
     includeSources := ""; excludeSources := "" |}.

Definition flagsFilterAndNames : Flags :=
  {| nameFilter := "e_"; includeNames := "e_ev_valid_time_too_long";
     excludeNames := ""; includeSources := ""; excludeSources := "" |}.

(** An enumeration of statuses and a result set. *)
Definition statuses : gmap string LintStatus :=
  list_to_map [("reserved", 0); ("NA", 1); ("NE", 2); ("pass", 3);
               ("notice", 4); ("warn", 5); ("error", 6); ("fatal", 7)].

Definition result (status : LintStatus) : LintResult :=
  {| Status := status; Details := "" |}.

Definition resultSet : ResultSet :=
  {| Results := list_to_map [("a", result 6); ("b", result 6);
                             ("c", result 3); ("d", result 5)] |}.

Definition allForwards : RangeOrders :=
  {| labelsOrder := forwards; levelsOrder := forwards;
     resultsOrder := forwards; countsOrder := forwards |}.

Definition allBackwards : RangeOrders :=
  {| labelsOrder := backwards; levelsOrder := backwards;
     resultsOrder := backwards; countsOrder := backwards |}.

(** Stand-ins for [LintStatus.String()]: the labels of the enumeration
    above, and a status type without labels. *)
Definition statusLabel (s : LintStatus) : string :=
  nth (Z.to_nat s)
      ["reserved"; "NA"; "NE"; "pass"; "notice"; "warn"; "error"; "fatal"] "".

Definition unlabelled (s : LintStatus) : string := "".

(** A stand-in for what [fmt.Printf] writes for an odd width. *)
Definition plainCell (hlen : Z) (cell : string) : string := cell.

End samples.

(** * Properties *)

(** ** Strings *)
Section GoStringsFacts.
Import GoStrings.

Lemma app_cons c (s t : string) : String c s +:+ t = String c (s +:+ t).
Proof. reflexivity. Qed.

Lemma app_empty_r (s : string) : s +:+ "" = s.
Proof. induction s as [|c s IH]; [reflexivity|]. now rewrite app_cons, IH. Qed.

Lemma app_assoc' (s t u : string) : (s +:+ t) +:+ u = s +:+ (t +:+ u).
Proof. induction s as [|c s IH]; [reflexivity|]. now rewrite !app_cons, IH. Qed.

Lemma rev_app (s t : string) : rev (s +:+ t) = rev t +:+ rev s.
Proof.
  induction s as [|c s IH]; simpl.
  - now rewrite app_empty_r.
  - now rewrite IH, app_assoc'.
Qed.

Lemma rev_rev (s : string) : rev (rev s) = s.
Proof.
  induction s as [|c s IH]; [reflexivity|].
  simpl. now rewrite rev_app, IH.
Qed.

Lemma allSpace_app (s t : string) :
  allSpace (s +:+ t) = allSpace s && allSpace t.
Proof.
  induction s as [|c s IH]; [reflexivity|].
  rewrite app_cons. simpl. rewrite IH. now rewrite andb_assoc.
Qed.

Lemma allSpace_rev (s : string) : allSpace (rev s) = allSpace s.
Proof.
  induction s as [|c s IH]; [reflexivity|].
  simpl. rewrite allSpace_app, IH. simpl.
  rewrite andb_true_r. apply andb_comm.
Qed.

Lemma isASCII_app (s t : string) : isASCII (s +:+ t) = isASCII s && isASCII t.
Proof.
  induction s as [|c s IH]; [reflexivity|].
  rewrite app_cons. simpl. rewrite IH. now rewrite andb_assoc.
Qed.

Lemma isASCII_rev (s : string) : isASCII (rev s) = isASCII s.
Proof.
  induction s as [|c s IH]; [reflexivity|].
  simpl. rewrite isASCII_app, IH. simpl.
  rewrite andb_true_r. apply andb_comm.
Qed.

Lemma Split_not_nil s sep : Split s sep <> [].
Proof.
  destruct s as [|c s]; simpl; [discriminate|].
  destruct (Ascii.eqb c sep); [discriminate|].
  destruct (Split s sep); discriminate.
Qed.



Lemma Split_segments_sep_free s sep :
  Forall (fun seg => ContainsByte seg sep = false) (Split s sep).
Proof.
  induction s as [|c s IH]; simpl.
  - constructor; [reflexivity|constructor].
  - destruct (Ascii.eqb c sep) eqn:E.
    + constructor; [reflexivity|exact IH].
    + destruct (Split s sep) as [|seg segs].
      * constructor; [simpl; now rewrite E|constructor].
      * inversion IH as [|? ? Hseg Hsegs]; subst.
        constructor; [simpl; now rewrite E, Hseg|exact Hsegs].
Qed.

Lemma isASCII_Split s sep :
  isASCII s = true -> Forall (fun seg => isASCII seg = true) (Split s sep).
Proof.
  induction s as [|c s IH]; simpl; intros H.
  - constructor; [reflexivity|constructor].
  - apply andb_true_iff in H as [Hc Hs]. specialize (IH Hs).
    destruct (Ascii.eqb c sep).
    + constructor; [reflexivity|exact IH].
    + destruct (Split s sep) as [|seg segs].
      * constructor; [simpl; now rewrite Hc|constructor].
      * inversion IH as [|? ? Hseg Hsegs]; subst.
        constructor; [simpl; now rewrite Hc, Hseg|exact Hsegs].
Qed.

Variables tf trf : string -> string.

Lemma trim_stop_decomp (r : string) :
  isASCII r = true ->
  exists post r', r = post +:+ r' /\ allSpace post = true
    /\ trim_stop trf r = rev r'
    /\ (forall c, firstByte r' = Some c -> asciiSpace c = false).
Proof.
  induction r as [|c r IH]; simpl; intros H.
  - exists "", "". repeat split; auto. discriminate.
  - apply andb_true_iff in H as [Hc Hr]. apply negb_true_iff in Hc.
    rewrite Hc. destruct (asciiSpace c) eqn:Hsp.
    + destruct (IH Hr) as (post & r' & -> & Hpost & Htrim & Hfirst).
      exists (String c post), r'. repeat split; auto.
      simpl. now rewrite Hsp, Hpost.
    + exists "", (String c r). repeat split; auto.
      simpl. intros c' [= <-]. exact Hsp.
Qed.

Lemma TrimSpace_decomp (s : string) :
  isASCII s = true ->
  exists pre rest, s = pre +:+ rest /\ allSpace pre = true
    /\ TrimSpace tf trf s = trim_stop trf (rev rest)
    /\ (forall c, firstByte rest = Some c -> asciiSpace c = false).
Proof.
  induction s as [|c s IH]; intros H.
  - exists "", "". repeat split; auto. discriminate.
  - simpl in H. apply andb_true_iff in H as [Hc Hs]. apply negb_true_iff in Hc.
    cbn [TrimSpace]. rewrite Hc. destruct (asciiSpace c) eqn:Hsp.
    + destruct (IH Hs) as (pre & rest & -> & Hpre & Htrim & Hfirst).
      exists (String c pre), rest. repeat split; auto.
      simpl. now rewrite Hsp, Hpre.
    + exists "", (String c s). repeat split; auto.
      simpl. intros c' [= <-]. exact Hsp.
Qed.

(** On a string of ASCII bytes [TrimSpace] removes exactly the leading and
    the trailing white space. *)
Lemma TrimSpace_ascii (s : string) :
  isASCII s = true -> Trimmed s (TrimSpace tf trf s).
Proof.
  intros H.
  destruct (TrimSpace_decomp s H) as (pre & rest & Hs & Hpre & Htrim & Hfirst).
  assert (Hrest : isASCII (rev rest) = true).
  { rewrite isASCII_rev. rewrite Hs, isASCII_app in H.
    now apply andb_true_iff in H as [_ ?]. }
  destruct (trim_stop_decomp _ Hrest) as (post & r' & Hr & Hpost & Hstop & Hlast).
  assert (Hrest' : rest = rev r' +:+ rev post).
  { rewrite <- (rev_rev rest), Hr. apply rev_app. }
  exists pre, (rev post). rewrite Htrim, Hstop.
  split; [now rewrite Hs, Hrest'|].
  split; [exact Hpre|].
  split; [now rewrite allSpace_rev|].
  split.
  - intros c Hc. apply Hfirst. rewrite Hrest'.
    destruct (rev r'); [discriminate|exact Hc].
  - intros c. unfold lastByte. rewrite rev_rev. apply Hlast.
Qed.

Lemma TrimSpace_empty : TrimSpace tf trf "" = "".
Proof. reflexivity. Qed.

Lemma trimmedList_loop (items acc : list string) :
  fold_left (fun list item => list ++ [TrimSpace tf trf item]) items acc
  = acc ++ map (TrimSpace tf trf) items.
Proof.
  revert acc. induction items as [|i items IH]; intros acc; simpl.
  - now rewrite app_nil_r.
  - rewrite IH. now rewrite <- app_assoc.
Qed.

Lemma trimmedList_map (raw : string) :
  main.trimmedList tf trf raw = map (TrimSpace tf trf) (Split raw ",").
Proof. unfold main.trimmedList. now rewrite trimmedList_loop. Qed.

Lemma trimmedList_not_nil (raw : string) : main.trimmedList tf trf raw <> [].
Proof.
  rewrite trimmedList_map. pose proof (Split_not_nil raw ",").
  destruct (Split raw ","); [contradiction|discriminate].
Qed.

End GoStringsFacts.


(** ** The rules of package [lints] *)
Section LintsFacts.
Import GoRuntime x509 lints.

Variable TypeInName : Name -> ObjectIdentifier -> bool.
Variable IsEv : list ObjectIdentifier -> bool.
Variable IsSubCA : Certificate -> bool.
Variable IsExtInCert : Certificate -> ObjectIdentifier -> bool.
Variable GetExtFromCert : Certificate -> ObjectIdentifier -> option Extension.
Variables PostalCodeOID OrganizationNameOID NameConstOID : ObjectIdentifier.

Lemma postalNoOrg_RunTest_cases (cert : Certificate) :
  postalNoOrg_RunTest TypeInName PostalCodeOID OrganizationNameOID cert
  = ({| Result := Error |}, None)
  \/ postalNoOrg_RunTest TypeInName PostalCodeOID OrganizationNameOID cert
     = ({| Result := Pass |}, None).
Proof.
  unfold postalNoOrg_RunTest.
  destruct (_ && _); [left|right]; reflexivity.
Qed.

Lemma evValidTooLong_RunTest_cases (c : Certificate) :
  evValidTooLong_RunTest c = ({| Result := Error |}, None)
  \/ evValidTooLong_RunTest c = ({| Result := Pass |}, None).
Proof.
  unfold evValidTooLong_RunTest.
  destruct (GoTime.Before _ _); [left|right]; reflexivity.
Qed.

Lemma SubCA_RunTest_found (cert : Certificate) (ski : Extension) :
  GetExtFromCert cert NameConstOID = Some ski ->
  SubCANameConstraintsNotCritical_RunTest GetExtFromCert NameConstOID cert
  = Returns ({| Result := if Critical ski then Pass else Warn |}, None).
Proof.
  intros H. unfold SubCANameConstraintsNotCritical_RunTest. rewrite H.
  destruct (Critical ski); reflexivity.
Qed.

Lemma SubCA_RunTest_nil (cert : Certificate) :
  GetExtFromCert cert NameConstOID = None ->
  exists reason,
    SubCANameConstraintsNotCritical_RunTest GetExtFromCert NameConstOID cert
    = Panics reason.
Proof.
  intros H. unfold SubCANameConstraintsNotCritical_RunTest. rewrite H. eauto.
Qed.

End LintsFacts.







(** The helpers of the model of package [util] fit together: the extension
    is in the certificate exactly when the lookup finds it. *)
Lemma util_IsExtInCert_found (cert : x509.Certificate) (oid : x509.ObjectIdentifier) :
  util.IsExtInCert cert oid = true -> is_Some (util.GetExtFromCert cert oid).
Proof.
  unfold util.IsExtInCert.
  destruct (util.GetExtFromCert cert oid); [eauto|discriminate].
Qed.

(** C4.  For every certificate, [RunTest] of the subject_postal_without_org
    rule returns [Error] (and a nil error) when the subject has a postalCode
    attribute and no organizationName attribute; it returns [Pass] when an
    organizationName attribute is present, and also when no postalCode
    attribute is present. *)
Theorem postalNoOrg_RunTest_spec
  (TypeInName : x509.Name -> x509.ObjectIdentifier -> bool)
  (PostalCodeOID OrganizationNameOID : x509.ObjectIdentifier)
  (cert : x509.Certificate) :
  (TypeInName (x509.Subject cert) PostalCodeOID = true ->
   TypeInName (x509.Subject cert) OrganizationNameOID = false ->
   lints.postalNoOrg_RunTest TypeInName PostalCodeOID OrganizationNameOID cert
   = ({| lints.Result := lints.Error |}, None))
  /\ (TypeInName (x509.Subject cert) OrganizationNameOID = true ->
      lints.postalNoOrg_RunTest TypeInName PostalCodeOID OrganizationNameOID cert
      = ({| lints.Result := lints.Pass |}, None))
  /\ (TypeInName (x509.Subject cert) PostalCodeOID = false ->
      lints.postalNoOrg_RunTest TypeInName PostalCodeOID OrganizationNameOID cert
      = ({| lints.Result := lints.Pass |}, None)).
Proof.
  unfold lints.postalNoOrg_RunTest.
  repeat split.
  - intros -> ->. reflexivity.
  - intros ->. now rewrite andb_false_r.
  - intros ->. reflexivity.
Qed.

Lemma postalNoOrg_RunTest_spec_witness :
  lints.postalNoOrg_RunTest util.TypeInName util.PostalCodeOID
    util.OrganizationNameOID samples.certPostalOnly
  = ({| lints.Result := lints.Error |}, None)
  /\ lints.postalNoOrg_RunTest util.TypeInName util.PostalCodeOID
       util.OrganizationNameOID samples.certPostalAndOrg
     = ({| lints.Result := lints.Pass |}, None)
  /\ lints.postalNoOrg_RunTest util.TypeInName util.PostalCodeOID
       util.OrganizationNameOID samples.certNoPostal
     = ({| lints.Result := lints.Pass |}, None).
Proof.
  split; [|split].
  - apply (proj1 (postalNoOrg_RunTest_spec util.TypeInName util.PostalCodeOID
                    util.OrganizationNameOID samples.certPostalOnly));
      reflexivity.
  - apply (proj1 (proj2 (postalNoOrg_RunTest_spec util.TypeInName
                           util.PostalCodeOID util.OrganizationNameOID
                           samples.certPostalAndOrg)));
      reflexivity.
  - apply (proj2 (proj2 (postalNoOrg_RunTest_spec util.TypeInName
                           util.PostalCodeOID util.OrganizationNameOID
                           samples.certNoPostal)));
      reflexivity.
Defined.




(** C9, as stated, fails for the third rule: on a certificate without the
    nameConstraints extension [GetExtFromCert] returns nil and [RunTest] of
    SubCANameConstraintsNotCritical dereferences it; the call panics and
    returns no result at all. *)
Lemma SubCANameConstraintsNotCritical_RunTest_panics :
  util.GetExtFromCert samples.certNoExtensions util.NameConstOID = None
  /\ lints.SubCANameConstraintsNotCritical_RunTest util.GetExtFromCert
       util.NameConstOID samples.certNoExtensions
     = GoRuntime.Panics "invalid memory address or nil pointer dereference"
  /\ ~ (exists st,
          lints.SubCANameConstraintsNotCritical_RunTest util.GetExtFromCert
            util.NameConstOID samples.certNoExtensions
          = GoRuntime.Returns ({| lints.Result := st |}, None)
          /\ (st = lints.Pass \/ st = lints.Warn)).
Proof.
  split; [reflexivity|]. split; [reflexivity|].
  intros (st & Hrun & _). discriminate Hrun.
Qed.

(** C9, amended.  [Initialize] of the three rules returns nil; for every
    certificate [RunTest] of postalNoOrg and of evValidTooLong returns a nil
    error and a result that is [Pass] or [Error]; for every certificate to
    which SubCANameConstraintsNotCritical applies, its [RunTest] returns a
    nil error and a result that is [Pass] or [Warn]. *)
Theorem lints_return_no_error
  (TypeInName : x509.Name -> x509.ObjectIdentifier -> bool)
  (IsSubCA : x509.Certificate -> bool)
  (IsExtInCert : x509.Certificate -> x509.ObjectIdentifier -> bool)
  (GetExtFromCert : x509.Certificate -> x509.ObjectIdentifier -> option x509.Extension)
  (PostalCodeOID OrganizationNameOID NameConstOID : x509.ObjectIdentifier)
  (Hfound : forall cert oid,
      IsExtInCert cert oid = true -> is_Some (GetExtFromCert cert oid)) :
  lints.postalNoOrg_Initialize = None
  /\ lints.evValidTooLong_Initialize = None
  /\ lints.SubCANameConstraintsNotCritical_Initialize = None
  /\ (forall cert, exists st,
        lints.postalNoOrg_RunTest TypeInName PostalCodeOID OrganizationNameOID cert
        = ({| lints.Result := st |}, None)
        /\ (st = lints.Pass \/ st = lints.Error))
  /\ (forall cert, exists st,
        lints.evValidTooLong_RunTest cert = ({| lints.Result := st |}, None)
        /\ (st = lints.Pass \/ st = lints.Error))
  /\ (forall cert,
        lints.SubCANameConstraintsNotCritical_CheckApplies IsSubCA IsExtInCert
          NameConstOID cert = true ->
        exists st,
          lints.SubCANameConstraintsNotCritical_RunTest GetExtFromCert
            NameConstOID cert
          = GoRuntime.Returns ({| lints.Result := st |}, None)
          /\ (st = lints.Pass \/ st = lints.Warn)).
Proof.
  split; [reflexivity|]. split; [reflexivity|]. split; [reflexivity|].
  split; [|split].
  - intros cert.
    destruct (postalNoOrg_RunTest_cases TypeInName PostalCodeOID
                OrganizationNameOID cert) as [-> | ->]; eauto.
  - intros cert.
    destruct (evValidTooLong_RunTest_cases cert) as [-> | ->]; eauto.
  - intros cert Happlies.
    unfold lints.SubCANameConstraintsNotCritical_CheckApplies in Happlies.
    apply andb_true_iff in Happlies as [_ Hin].
    destruct (Hfound _ _ Hin) as [ski Hski].
    rewrite (SubCA_RunTest_found _ _ _ _ Hski).
    destruct (x509.Critical ski); eauto.
Qed.

Lemma lints_return_no_error_witness :
  exists st,
    lints.SubCANameConstraintsNotCritical_RunTest util.GetExtFromCert
      util.NameConstOID samples.certSubCANotCritical
    = GoRuntime.Returns ({| lints.Result := st |}, None)
    /\ (st = lints.Pass \/ st = lints.Warn).
Proof.
  apply (proj2 (proj2 (proj2 (proj2 (proj2
    (lints_return_no_error util.TypeInName util.IsSubCA util.IsExtInCert
       util.GetExtFromCert util.PostalCodeOID util.OrganizationNameOID
       util.NameConstOID util_IsExtInCert_found)))))).
  reflexivity.
Defined.

(** C10.  The sub_ca_name_constraints_not_critical rule applies exactly to
    the subordinate CA certificates that contain the nameConstraints
    extension; on every certificate to which it applies [RunTest] returns
    [Pass] if that extension is marked critical and [Warn] if it is not. *)
Theorem SubCANameConstraintsNotCritical_spec
  (IsSubCA : x509.Certificate -> bool)
  (IsExtInCert : x509.Certificate -> x509.ObjectIdentifier -> bool)
  (GetExtFromCert : x509.Certificate -> x509.ObjectIdentifier -> option x509.Extension)
  (NameConstOID : x509.ObjectIdentifier)
  (Hfound : forall cert oid,
      IsExtInCert cert oid = true -> is_Some (GetExtFromCert cert oid))
  (cert : x509.Certificate) :
  (lints.SubCANameConstraintsNotCritical_CheckApplies IsSubCA IsExtInCert
     NameConstOID cert = true
   <-> IsSubCA cert = true /\ IsExtInCert cert NameConstOID = true)
  /\ (lints.SubCANameConstraintsNotCritical_CheckApplies IsSubCA IsExtInCert
        NameConstOID cert = true ->
      exists ext,
        GetExtFromCert cert NameConstOID = Some ext
        /\ (x509.Critical ext = true ->
            lints.SubCANameConstraintsNotCritical_RunTest GetExtFromCert
              NameConstOID cert
            = GoRuntime.Returns ({| lints.Result := lints.Pass |}, None))
        /\ (x509.Critical ext = false ->
            lints.SubCANameConstraintsNotCritical_RunTest GetExtFromCert
              NameConstOID cert
            = GoRuntime.Returns ({| lints.Result := lints.Warn |}, None))).
Proof.
  unfold lints.SubCANameConstraintsNotCritical_CheckApplies.
  split; [apply andb_true_iff|].
  intros Happlies. apply andb_true_iff in Happlies as [_ Hin].
  destruct (Hfound _ _ Hin) as [ski Hski].
  exists ski. split; [exact Hski|].
  rewrite (SubCA_RunTest_found _ _ _ _ Hski).
  split; intros ->; reflexivity.
Qed.

Lemma SubCANameConstraintsNotCritical_spec_witness :
  lints.SubCANameConstraintsNotCritical_CheckApplies util.IsSubCA
    util.IsExtInCert util.NameConstOID samples.certSubCANotCritical = true
  /\ lints.SubCANameConstraintsNotCritical_RunTest util.GetExtFromCert
       util.NameConstOID samples.certSubCANotCritical
     = GoRuntime.Returns ({| lints.Result := lints.Warn |}, None)
  /\ lints.SubCANameConstraintsNotCritical_RunTest util.GetExtFromCert
       util.NameConstOID samples.certSubCACritical
     = GoRuntime.Returns ({| lints.Result := lints.Pass |}, None).
Proof.
  split; [reflexivity|split].
  - destruct (proj2 (SubCANameConstraintsNotCritical_spec util.IsSubCA
                       util.IsExtInCert util.GetExtFromCert util.NameConstOID
                       util_IsExtInCert_found samples.certSubCANotCritical)
                eq_refl) as (ext & Hext & _ & Hwarn).
    apply Hwarn. injection Hext as <-. reflexivity.
  - destruct (proj2 (SubCANameConstraintsNotCritical_spec util.IsSubCA
                       util.IsExtInCert util.GetExtFromCert util.NameConstOID
                       util_IsExtInCert_found samples.certSubCACritical)
                eq_refl) as (ext & Hext & Hpass & _).
    apply Hpass. injection Hext as <-. reflexivity.
Defined.

(** ** [setLints] *)
Section SetLintsFacts.
Import GoRuntime lint main.

Variables tf trf : string -> string.
Context {Regexp : Type}.
Variable regexp_Compile : string -> Regexp + string.
Variable MatchString : Regexp -> string -> bool.
Variable SourceList_FromString : string -> list string + string.
Variable GlobalRegistry : Registry.

Local Abbreviation setLints :=
  (main.setLints tf trf regexp_Compile MatchString SourceList_FromString
     GlobalRegistry).
Local Abbreviation setNameFilter := (main.setNameFilter regexp_Compile).

Lemma isSet_true (s : string) : isSet s = true <-> s <> "".
Proof.
  unfold isSet. rewrite negb_true_iff. split.
  - intros H ->. discriminate.
  - intros H. destruct (String.eqb s "") eqn:E; [|reflexivity].
    apply String.eqb_eq in E. contradiction.
Qed.

Lemma isEmpty_trimmedList (raw : string) :
  isEmpty (main.trimmedList tf trf raw) = false.
Proof.
  pose proof (trimmedList_not_nil tf trf raw).
  destruct (main.trimmedList tf trf raw); [contradiction|reflexivity].
Qed.

(** The statements after the name filter end the process or go on; they
    leave [NameFilter] as it is, and [ExcludeNames], [IncludeNames] are empty
    only if their flag is not set. *)
Lemma setLints_tail (fl : Flags) (opts : FilterOptions Regexp) :
  ExcludeNames opts = [] -> IncludeNames opts = [] ->
  let out :=
    Continue opts
    >>> setExcludeSources SourceList_FromString fl
    >>> setIncludeSources SourceList_FromString fl
    >>> setExcludeNames tf trf fl
    >>> setIncludeNames tf trf fl in
  (exists logged, out = Fatalf logged)
  \/ (exists opts',
        out = Continue opts'
        /\ NameFilter opts' = NameFilter opts
        /\ isEmpty (ExcludeNames opts') = negb (isSet (excludeNames fl))
        /\ isEmpty (IncludeNames opts') = negb (isSet (includeNames fl))).
Proof.
  intros Hex Hin.
  unfold setExcludeSources, setIncludeSources, setExcludeNames, setIncludeNames.
  cbn [andThen].
  destruct (isSet (excludeNames fl)), (isSet (includeNames fl));
    (destruct (isSet (excludeSources fl));
     [destruct (SourceList_FromString (excludeSources fl))|]);
    cbn [andThen]; eauto;
    (destruct (isSet (includeSources fl));
     [destruct (SourceList_FromString (includeSources fl))|]);
    cbn [andThen]; eauto;
    right; eexists; (split; [reflexivity|]);
    cbn [NameFilter ExcludeNames IncludeNames negb];
    rewrite ?isEmpty_trimmedList, ?Hex, ?Hin; auto.
Qed.

Lemma errConflictingFilters_not_bad (err : string) :
  errConflictingFilters <> "bad -nameFilter: " +:+ err.
Proof. discriminate. Qed.

Lemma setNameFilter_unset (fl : Flags) (opts : FilterOptions Regexp) :
  isSet (nameFilter fl) = false -> setNameFilter fl opts = Continue opts.
Proof. intros H. unfold main.setNameFilter. now rewrite H. Qed.

(** When the name filter compiled, what [setLints] does next. *)
Lemma setLints_compiled (fl : Flags) (r : Regexp) :
  isSet (nameFilter fl) = true ->
  regexp_Compile (nameFilter fl) = inl r ->
  (exists logged, setLints fl = Exits logged)
  \/ (exists opts,
        setLints fl = Returns (Filter MatchString GlobalRegistry opts)
        /\ NameFilter opts = Some r
        /\ isEmpty (ExcludeNames opts) = negb (isSet (excludeNames fl))
        /\ isEmpty (IncludeNames opts) = negb (isSet (includeNames fl))).
Proof.
  intros Hnf Hr.
  unfold main.setLints. rewrite Hnf. cbn [negb andb andThen].
  unfold main.setNameFilter. rewrite Hnf, Hr.
  match goal with
  | |- context [Continue ?o >>> _ >>> _ >>> _ >>> _ >>> _] =>
      destruct (setLints_tail fl o eq_refl eq_refl)
        as [[logged Hout] | (opts' & Hout & Hre & Hex & Hin)]
  end; cbv zeta in Hout; rewrite Hout; cbn [andThen body].
  - left. eauto.
  - right. exists opts'. auto.
Qed.

(** C6.  Whenever the nameFilter flag is not empty and at least one of the
    includeNames and excludeNames flags is not empty either, [setLints]
    fails: it returns a nil registry with a non-nil error, or the process
    is ended by [log.Fatalf]. *)
Theorem setLints_nameFilter_with_names (fl : Flags) :
  nameFilter fl <> "" ->
  includeNames fl <> "" \/ excludeNames fl <> "" ->
  (exists err, setLints fl = Returns (None, Some err))
  \/ (exists logged, setLints fl = Exits logged).
Proof.
  intros Hnf Hnames. apply isSet_true in Hnf.
  destruct (regexp_Compile (nameFilter fl)) as [r|err] eqn:Hr.
  - destruct (setLints_compiled fl r Hnf Hr)
      as [[logged Hout] | (opts & Hout & Hre & Hex & Hin)]; [eauto|].
    left. exists errConflictingFilters. rewrite Hout.
    unfold Filter. rewrite Hre, Hex, Hin.
    destruct Hnames as [H | H]; apply isSet_true in H; rewrite H;
      cbn [negb andb]; rewrite ?andb_false_r; reflexivity.
  - left. eexists. unfold main.setLints. rewrite Hnf. cbn [negb andb andThen].
    unfold main.setNameFilter. rewrite Hnf, Hr. reflexivity.
Qed.

(** C7.  The empty pattern being a valid regular expression: for every
    nameFilter that is not a valid regular expression [setLints] returns a
    nil registry and the error of the compilation, whatever the other flags
    are; for every valid one the statement that compiles it goes on to the
    next statement, and [setLints] does not return that error. *)
Theorem setLints_invalid_nameFilter
  (Hempty : exists r, regexp_Compile "" = inl r) (fl : Flags) :
  (forall err,
     regexp_Compile (nameFilter fl) = inr err ->
     setLints fl = Returns (None, Some ("bad -nameFilter: " +:+ err)))
  /\ (forall r,
        regexp_Compile (nameFilter fl) = inl r ->
        (forall opts, exists opts', setNameFilter fl opts = Continue opts')
        /\ (forall err,
              setLints fl <> Returns (None, Some ("bad -nameFilter: " +:+ err)))).
Proof.
  split.
  - intros err Herr.
    assert (Hnf : isSet (nameFilter fl) = true).
    { apply isSet_true. intros Heq. rewrite Heq in Herr.
      destruct Hempty as [r Hr]. congruence. }
    unfold main.setLints. rewrite Hnf. cbn [negb andb andThen].
    unfold main.setNameFilter. rewrite Hnf, Herr. reflexivity.
  - intros r Hr. split.
    + intros opts. unfold main.setNameFilter. rewrite Hr.
      destruct (isSet (nameFilter fl)); eauto.
    + intros err.
      destruct (isSet (nameFilter fl)) eqn:Hnf.
      * destruct (setLints_compiled fl r Hnf Hr)
          as [[logged Hout] | (opts & Hout & _)]; rewrite Hout;
          [discriminate|].
        unfold Filter.
        destruct (NameFilter opts);
          [destruct (isEmpty (IncludeNames opts) && isEmpty (ExcludeNames opts))|];
          try discriminate;
          intros [= H]; now apply errConflictingFilters_not_bad in H.
      * unfold main.setLints. rewrite Hnf. cbn [negb andb].
        match goal with
        | |- context [if ?c then _ else _] => destruct c
        end; [discriminate|].
        change (Continue noFilterOptions >>> main.setNameFilter regexp_Compile fl)
          with (setNameFilter fl noFilterOptions).
        rewrite (setNameFilter_unset fl noFilterOptions Hnf).
        destruct (setLints_tail fl noFilterOptions eq_refl eq_refl)
          as [[logged Hout] | (opts & Hout & Hre & _)];
          cbv zeta in Hout; rewrite Hout; cbn [andThen body]; [discriminate|].
        unfold Filter. rewrite Hre. discriminate.
Qed.

End SetLintsFacts.

Lemma setLints_nameFilter_with_names_witness :
  (exists err,
     main.setLints id id samples.parenCompile samples.occursIn
       samples.anySources samples.registry samples.flagsFilterAndNames
     = GoRuntime.Returns (None, Some err))
  \/ (exists logged,
        main.setLints id id samples.parenCompile samples.occursIn
          samples.anySources samples.registry samples.flagsFilterAndNames
        = GoRuntime.Exits logged).
Proof.
  apply (setLints_nameFilter_with_names id id samples.parenCompile
           samples.occursIn samples.anySources samples.registry
           samples.flagsFilterAndNames).
  - discriminate.
  - left. discriminate.
Defined.

Lemma setLints_invalid_nameFilter_witness :
  main.setLints id id samples.parenCompile samples.occursIn
    samples.anySources samples.registry samples.flagsBadFilter
  = GoRuntime.Returns
      (None,
       Some "bad -nameFilter: error parsing regexp: missing closing ): `e_(ev`").
Proof.
  apply (proj1 (setLints_invalid_nameFilter id id samples.parenCompile
                  samples.occursIn samples.anySources samples.registry
                  (ex_intro _ "" eq_refl) samples.flagsBadFilter)).
  reflexivity.
Defined.

(** ** [resultsTable.newRT] *)
Section NewRTFacts.
Import GoMap GoInt lint main.

Variable StatusLabelToLintStatus : gmap string LintStatus.

Local Abbreviation isLevel := (main.isLevel StatusLabelToLintStatus).
Local Abbreviation newRT := (main.newRT StatusLabelToLintStatus).

Lemma range_perm {K A} `{Countable K} (o : RangeOrder) (m : gmap K A) :
  range o m ≡ₚ map_to_list m.
Proof. apply visit_perm. Qed.

Lemma levelsAbove_lookup (T : Z) (entries : list (string * LintStatus))
  (levels : gmap Z LintStatus) (k : Z) :
  levelsAbove T entries levels !! k
  = if decide (T < k ∧ k ∈ entries.*2) then Some k else levels !! k.
Proof.
  revert levels. induction entries as [|[label i] es IH]; intros levels.
  - rewrite decide_False; [done|]. intros [_ H]. by apply elem_of_nil in H.
  - change (levelsAbove T ((label, i) :: es) levels)
      with (levelsAbove T es (if i <=? T then levels else <[i:=i]> levels)).
    rewrite IH. rewrite fmap_cons. simpl.
    destruct (Z.leb_spec i T) as [Hle|Hlt].
    + apply decide_ext. rewrite elem_of_cons. split; [intuition|].
      intros [? [->|?]]; [lia|done].
    + destruct (decide (i = k)) as [->|Hne].
      * rewrite lookup_insert_eq.
        rewrite (decide_True (P := T < k ∧ k ∈ k :: es.*2));
          [|split; [done|apply elem_of_cons; by left]].
        by destruct (decide _).
      * rewrite lookup_insert_ne by done.
        apply decide_ext. rewrite elem_of_cons. intuition congruence.
Qed.

Lemma elem_of_range_values {K A} `{Countable K} (o : RangeOrder)
  (m : gmap K A) (v : A) :
  v ∈ (range o m).*2 ↔ ∃ k, m !! k = Some v.
Proof.
  rewrite (range_perm o m). rewrite list_elem_of_fmap. split.
  - intros [[k v'] [-> Hin]]. exists k. by apply elem_of_map_to_list.
  - intros [k Hk]. exists (k, v). split; [done|]. by apply elem_of_map_to_list.
Qed.

Lemma elem_of_range_keys {K A} `{Countable K} (o : RangeOrder)
  (m : gmap K A) (k : K) :
  k ∈ (range o m).*1 ↔ is_Some (m !! k).
Proof.
  rewrite (range_perm o m). rewrite list_elem_of_fmap. split.
  - intros [[k' v] [-> Hin]]. exists v. by apply elem_of_map_to_list.
  - intros [v Hv]. exists (k, v). split; [done|]. by apply elem_of_map_to_list.
Qed.

Lemma zeroCounts_lookup (entries : list (Z * LintStatus))
  (counts : gmap LintStatus Z) (k : LintStatus) :
  zeroCounts entries counts !! k
  = if decide (k ∈ entries.*2) then Some 0 else counts !! k.
Proof.
  revert counts. induction entries as [|[key level] es IH]; intros counts.
  - rewrite decide_False; [done|]. apply not_elem_of_nil.
  - change (zeroCounts ((key, level) :: es) counts)
      with (zeroCounts es (<[level:=0]> counts)).
    rewrite IH, fmap_cons. simpl.
    destruct (decide (level = k)) as [->|Hne].
    + rewrite lookup_insert_eq.
      rewrite (decide_True (P := k ∈ k :: es.*2)) by (apply elem_of_cons; by left).
      by destruct (decide _).
    + rewrite lookup_insert_ne by done.
      apply decide_ext. rewrite elem_of_cons. intuition congruence.
Qed.

Lemma iter_incr_shift (n : nat) (x : Z) :
  Nat.iter n incr (incr x) = incr (Nat.iter n incr x).
Proof. induction n as [|n IH]; simpl; [done|]. by rewrite IH. Qed.

Lemma iter_incr_exact (n : nat) :
  Z.of_nat n < 2 ^ 63 -> Nat.iter n incr 0 = Z.of_nat n.
Proof.
  induction n as [|n IH]; intros Hn; [done|].
  simpl. rewrite IH by lia. unfold incr, wrap.
  rewrite Z.mod_small by lia. lia.
Qed.

Lemma withStatus_cons (s : LintStatus) (e : string * LintResult)
  (es : list (string * LintResult)) :
  withStatus s (e :: es)
  = if decide (Status e.2 = s) then e :: withStatus s es else withStatus s es.
Proof. unfold withStatus. by rewrite filter_cons. Qed.

Lemma countEvents_cons (T : Z) (long : bool) (e : string * LintResult)
  (es : list (string * LintResult))
  (c : gmap LintStatus Z) (d : gmap LintStatus (list string)) :
  countEvents T long (e :: es) (c, d)
  = countEvents T long es
      (if T <? Status e.2 then
         (<[Status e.2 := incr (index 0 c (Status e.2))]> c,
          if long then <[Status e.2 := index [] d (Status e.2) ++ [e.1]]> d
          else d)
       else (c, d)).
Proof. reflexivity. Qed.

Lemma countEvents_counts (T : Z) (long : bool)
  (entries : list (string * LintResult))
  (c : gmap LintStatus Z) (d : gmap LintStatus (list string)) (s : LintStatus) :
  (countEvents T long entries (c, d)).1 !! s
  = if decide (T < s ∧ withStatus s entries ≠ [])
    then Some (Nat.iter (length (withStatus s entries)) incr (index 0 c s))
    else c !! s.
Proof.
  revert c d. induction entries as [|e es IH]; intros c d.
  - rewrite decide_False; [done|]. by intros [_ H].
  - rewrite countEvents_cons, withStatus_cons.
    destruct (Z.ltb_spec T (Status e.2)) as [Hlt|Hle].
    + rewrite IH. destruct (decide (Status e.2 = s)) as [<-|Hne].
      * rewrite (decide_True (P := T < _ ∧ e :: _ ≠ [])) by done.
        unfold index at 1. rewrite lookup_insert_eq.
        change (default 0 (Some ?x)) with x.
        rewrite iter_incr_shift.
        destruct (withStatus (Status e.2) es) as [|e' es'].
        -- by rewrite decide_False by (by intros [_ H]).
        -- by rewrite decide_True.
      * unfold index at 1. rewrite !lookup_insert_ne by done. done.
    + rewrite IH. destruct (decide (Status e.2 = s)) as [<-|Hne]; [|done].
      rewrite !decide_False by lia. done.
Qed.

Lemma countEvents_details (T : Z) (long : bool)
  (entries : list (string * LintResult))
  (c : gmap LintStatus Z) (d : gmap LintStatus (list string)) (s : LintStatus) :
  (countEvents T long entries (c, d)).2 !! s
  = if decide (long = true ∧ T < s ∧ withStatus s entries ≠ [])
    then Some (index [] d s ++ (withStatus s entries).*1)
    else d !! s.
Proof.
  revert c d. induction entries as [|e es IH]; intros c d.
  - rewrite decide_False; [done|]. by intros (_ & _ & H).
  - rewrite countEvents_cons, withStatus_cons.
    destruct (Z.ltb_spec T (Status e.2)) as [Hlt|Hle].
    + rewrite IH. destruct long.
      * destruct (decide (Status e.2 = s)) as [<-|Hne].
        -- rewrite (decide_True (P := true = true ∧ T < _ ∧ e :: _ ≠ [])) by done.
           unfold index at 1. rewrite lookup_insert_eq.
           change (default [] (Some ?x)) with x.
           rewrite <- app_assoc, fmap_cons.
           destruct (withStatus (Status e.2) es) as [|e' es'].
           ++ by rewrite decide_False by (by intros (_ & _ & H)).
           ++ by rewrite decide_True.
        -- unfold index at 1. rewrite !lookup_insert_ne by done. done.
      * rewrite !decide_False by (intros [? _]; done). done.
    + rewrite IH. destruct (decide (Status e.2 = s)) as [<-|Hne]; [|done].
      rewrite !decide_False by lia. done.
Qed.

Lemma collectLevels_app (entries : list (LintStatus * Z)) (levels : list Z) :
  collectLevels entries levels = levels ++ entries.*1.
Proof.
  revert levels. induction entries as [|e es IH]; intros levels.
  - simpl. by rewrite app_nil_r.
  - change (collectLevels (e :: es) levels) with (collectLevels es (levels ++ [e.1])).
    rewrite IH, fmap_cons, <- app_assoc. done.
Qed.

Lemma withStatus_range (o : RangeOrder) (results : ResultSet) (s : LintStatus) :
  withStatus s (range o (Results results))
  ≡ₚ withStatus s (map_to_list (Results results)).
Proof. unfold withStatus. by rewrite range_perm. Qed.

Lemma length_withStatus_range (o : RangeOrder) (results : ResultSet) (s : LintStatus) :
  length (withStatus s (range o (Results results))) = occurrences results s.
Proof. unfold occurrences. by rewrite withStatus_range. Qed.

Lemma withStatus_range_nil (o : RangeOrder) (results : ResultSet) (s : LintStatus) :
  withStatus s (range o (Results results)) ≠ [] ↔ occurrences results s ≠ 0%nat.
Proof.
  rewrite <- length_withStatus_range with (o := o).
  destruct (withStatus s (range o (Results results))); simpl; split; done.
Qed.


Lemma occurrences_le_size (results : ResultSet) (s : LintStatus) :
  (occurrences results s ≤ size (Results results))%nat.
Proof.
  unfold occurrences, withStatus.
  etrans; [apply length_filter|]. by rewrite length_map_to_list.
Qed.

Lemma isLevel_elem (s : LintStatus) :
  isLevel s ↔ s ∈ (map_to_list StatusLabelToLintStatus).*2.
Proof.
  unfold main.isLevel. rewrite list_elem_of_fmap. split.
  - intros [label H]. exists (label, s). split; [done|]. by apply elem_of_map_to_list.
  - intros [[label s'] [-> H]]. exists label. by apply elem_of_map_to_list.
Qed.

Local Instance isLevel_dec (s : LintStatus) : Decision (isLevel s).
Proof.
  refine (cast_if (decide (s ∈ (map_to_list StatusLabelToLintStatus).*2)));
    by rewrite isLevel_elem.
Defined.

(** *** The fields of the table that [newRT] returns *)
Lemma newRT_levels_lookup (ord : RangeOrders) (r : resultsTable) (T : LintStatus)
  (results : ResultSet) (long : bool) (k : Z) :
  lintLevelsAboveThreshold (newRT ord r T results long) !! k
  = if decide (T < k ∧ isLevel k) then Some k else None.
Proof.
  unfold main.newRT. cbn [lintLevelsAboveThreshold].
  rewrite levelsAbove_lookup, lookup_empty.
  apply decide_ext. by rewrite elem_of_range_values.
Qed.

Lemma newRT_zero_lookup (o1 o2 : RangeOrder) (T : LintStatus) (k : LintStatus) :
  zeroCounts (range o2 (levelsAbove T (range o1 StatusLabelToLintStatus) ∅)) ∅ !! k
  = if decide (T < k ∧ isLevel k) then Some 0 else None.
Proof.
  rewrite zeroCounts_lookup, lookup_empty.
  apply decide_ext. rewrite elem_of_range_values. split.
  - intros [key Hkey]. rewrite levelsAbove_lookup, lookup_empty in Hkey.
    case_decide as H; [|done]. injection Hkey as ->.
    by rewrite elem_of_range_values in H.
  - intros H. exists k. rewrite levelsAbove_lookup, lookup_empty.
    rewrite decide_True; [done|]. by rewrite elem_of_range_values.
Qed.

Lemma newRT_count_lookup (ord : RangeOrders) (r : resultsTable) (T : LintStatus)
  (results : ResultSet) (long : bool) (s : LintStatus) :
  resultCount (newRT ord r T results long) !! s
  = if decide (T < s ∧ occurrences results s ≠ 0%nat)
    then Some (Nat.iter (occurrences results s) incr 0)
    else if decide (T < s ∧ isLevel s) then Some 0 else None.
Proof.
  unfold main.newRT. cbn [resultCount].
  rewrite countEvents_counts, length_withStatus_range.
  unfold index. rewrite newRT_zero_lookup.
  destruct (decide (T < s ∧ isLevel s)); cbn [default];
    apply decide_ext; by rewrite withStatus_range_nil.
Qed.

Lemma newRT_details_lookup (ord : RangeOrders) (r : resultsTable) (T : LintStatus)
  (results : ResultSet) (long : bool) (s : LintStatus) :
  resultDetails (newRT ord r T results long) !! s
  = if decide (long = true ∧ T < s ∧ occurrences results s ≠ 0%nat)
    then Some (withStatus s (range (resultsOrder ord) (Results results))).*1
    else None.
Proof.
  unfold main.newRT. cbn [resultDetails].
  rewrite countEvents_details. unfold index. rewrite lookup_empty.
  apply decide_ext. by rewrite withStatus_range_nil.
Qed.

Lemma newRT_sortedLevels (ord : RangeOrders) (r : resultsTable) (T : LintStatus)
  (results : ResultSet) (long : bool) :
  sortedLevels (newRT ord r T results long)
  = sort_Ints (sortedLevels r
               ++ (range (countsOrder ord)
                     (resultCount (newRT ord r T results long))).*1).
Proof. unfold main.newRT. cbn [sortedLevels resultCount]. by rewrite collectLevels_app. Qed.

Lemma sort_Ints_perm (l1 l2 : list Z) : l1 ≡ₚ l2 -> sort_Ints l1 = sort_Ints l2.
Proof.
  intros Hp. unfold sort_Ints.
  apply (Sorted_unique Z.le); try apply Sorted_merge_sort; try apply _.
  by rewrite !merge_sort_Permutation.
Qed.


Lemma newRT_count_index (ord : RangeOrders) (r : resultsTable) (T : LintStatus)
  (results : ResultSet) (long : bool) (s : LintStatus) :
  T < s ->
  index 0 (resultCount (newRT ord r T results long)) s
  = Nat.iter (occurrences results s) incr 0.
Proof.
  intros Hs. unfold index. rewrite newRT_count_lookup.
  destruct (decide (T < s ∧ occurrences results s ≠ 0%nat)) as [|Hn]; [done|].
  assert (occurrences results s = 0%nat) as ->.
  { destruct (occurrences results s); [done|]. exfalso. apply Hn. done. }
  by destruct (decide _).
Qed.

Lemma newRT_count_dom (ord : RangeOrders) (r : resultsTable) (T : LintStatus)
  (results : ResultSet) (long : bool) (s : LintStatus) :
  is_Some (resultCount (newRT ord r T results long) !! s)
  ↔ T < s ∧ (isLevel s ∨ occurrences results s ≠ 0%nat).
Proof.
  rewrite newRT_count_lookup.
  destruct (decide (T < s ∧ occurrences results s ≠ 0%nat)) as [[??]|Hn].
  - split; [auto|eauto].
  - destruct (decide (T < s ∧ isLevel s)) as [[??]|Hl].
    + split; [auto|eauto].
    + split; [by intros [? ?]|]. intros [? [?|?]]; exfalso; auto.
Qed.

Lemma newRT_sortedLevels_elem (ord : RangeOrders) (r : resultsTable)
  (T : LintStatus) (results : ResultSet) (long : bool) (s : Z) :
  s ∈ sortedLevels (newRT ord r T results long)
  ↔ s ∈ sortedLevels r ∨ (T < s ∧ (isLevel s ∨ occurrences results s ≠ 0%nat)).
Proof.
  rewrite newRT_sortedLevels. unfold sort_Ints.
  rewrite merge_sort_Permutation, elem_of_app, elem_of_range_keys.
  by rewrite newRT_count_dom.
Qed.

Lemma newRT_details_index (ord : RangeOrders) (r : resultsTable) (T : LintStatus)
  (results : ResultSet) (long : bool) (s : LintStatus) :
  index [] (resultDetails (newRT ord r T results long)) s
  = if decide (long = true ∧ T < s)
    then (withStatus s (range (resultsOrder ord) (Results results))).*1
    else [].
Proof.
  unfold index. rewrite newRT_details_lookup.
  destruct (decide (long = true ∧ T < s ∧ occurrences results s ≠ 0%nat))
    as [(? & ? & ?)|Hn].
  - by rewrite decide_True.
  - destruct (decide (long = true ∧ T < s)) as [[??]|]; [|done].
    cbn [default].
    destruct (withStatus s (range (resultsOrder ord) (Results results))) eqn:E;
      [done|].
    exfalso. apply Hn. repeat split; [done..|].
    apply (withStatus_range_nil (resultsOrder ord)). by rewrite E.
Qed.

Lemma elem_of_withStatus_names (o : RangeOrder) (results : ResultSet)
  (s : LintStatus) (name : string) :
  name ∈ (withStatus s (range o (Results results))).*1
  ↔ ∃ res, Results results !! name = Some res ∧ Status res = s.
Proof.
  rewrite withStatus_range, list_elem_of_fmap. split.
  - intros [[name' res] [-> Hin]]. apply list_elem_of_filter in Hin as [Hs Hin].
    apply elem_of_map_to_list in Hin. eauto.
  - intros (res & Hin & Hs). exists (name, res). split; [done|].
    apply list_elem_of_filter. split; [done|]. by apply elem_of_map_to_list.
Qed.

(** C1.  The number of results being a Go [int]: in the table that [newRT]
    builds there is no bucket for a status at or below the threshold; the
    count of a status above the threshold is the number of results of the
    set that have exactly that status; and the details of a status list a
    rule exactly when details are asked for, the status is above the
    threshold and the result of the rule has that status. *)
Theorem newRT_counts_above_threshold (ord : RangeOrders) (r : resultsTable)
  (T : LintStatus) (results : ResultSet) (long : bool) (s : LintStatus) :
  Z.of_nat (size (Results results)) < 2 ^ 63 ->
  (s <= T ->
   resultCount (newRT ord r T results long) !! s = None
   /\ resultDetails (newRT ord r T results long) !! s = None)
  /\ (T < s ->
      index 0 (resultCount (newRT ord r T results long)) s
      = Z.of_nat (occurrences results s))
  /\ (forall name,
        name ∈ index [] (resultDetails (newRT ord r T results long)) s
        <-> long = true /\ T < s
            /\ exists res, Results results !! name = Some res /\ Status res = s).
Proof.
  intros Hsize. split; [|split].
  - intros Hs. rewrite newRT_count_lookup, newRT_details_lookup.
    rewrite !decide_False by (intros ?; lia). done.
  - intros Hs. rewrite newRT_count_index by done.
    apply iter_incr_exact. pose proof (occurrences_le_size results s). lia.
  - intros name. rewrite newRT_details_index.
    destruct (decide (long = true ∧ T < s)) as [[??]|Hn].
    + rewrite elem_of_withStatus_names. intuition.
    + split; [by intros ?%elem_of_nil|]. intros (? & ? & _). exfalso. auto.
Qed.



(** [outputSummary] takes [lint.Pass] as threshold: a result that passed
    is in no bucket of the table it prints. *)
Lemma outputSummary_table_skips_Pass (Pass : LintStatus) (ord : RangeOrders)
  (zlintResult : ResultSet) (long : bool) :
  resultCount
    (main.outputSummary_table StatusLabelToLintStatus Pass ord zlintResult long)
    !! Pass = None.
Proof.
  unfold main.outputSummary_table. rewrite newRT_count_lookup.
  rewrite !decide_False by (intros [? _]; lia). done.
Qed.

(** C2, amended.  Two calls of [newRT] on the same receiver, threshold,
    result set and flag return the same counts, the same levels and the
    same sorted levels; the details of each status hold the same rule names,
    in an order that follows the iteration over the result set: the tables
    are equal when that order is the same, and when no details are asked
    for. *)
Theorem newRT_up_to_details_order (ord1 ord2 : RangeOrders) (r : resultsTable)
  (T : LintStatus) (results : ResultSet) (long : bool) :
  resultCount (newRT ord1 r T results long)
  = resultCount (newRT ord2 r T results long)
  /\ lintLevelsAboveThreshold (newRT ord1 r T results long)
     = lintLevelsAboveThreshold (newRT ord2 r T results long)
  /\ sortedLevels (newRT ord1 r T results long)
     = sortedLevels (newRT ord2 r T results long)
  /\ dom (resultDetails (newRT ord1 r T results long))
     = dom (resultDetails (newRT ord2 r T results long))
  /\ (forall s,
        index [] (resultDetails (newRT ord1 r T results long)) s
        ≡ₚ index [] (resultDetails (newRT ord2 r T results long)) s)
  /\ (resultsOrder ord1 = resultsOrder ord2 \/ long = false ->
      newRT ord1 r T results long = newRT ord2 r T results long).
Proof.
  assert (Hcount : resultCount (newRT ord1 r T results long)
                   = resultCount (newRT ord2 r T results long)).
  { apply map_eq. intros s. by rewrite !newRT_count_lookup. }
  assert (Hlevels : lintLevelsAboveThreshold (newRT ord1 r T results long)
                    = lintLevelsAboveThreshold (newRT ord2 r T results long)).
  { apply map_eq. intros k. by rewrite !newRT_levels_lookup. }
  assert (Hsorted : sortedLevels (newRT ord1 r T results long)
                    = sortedLevels (newRT ord2 r T results long)).
  { rewrite !newRT_sortedLevels. apply sort_Ints_perm.
    rewrite Hcount. by rewrite !range_perm. }
  split; [done|]. split; [done|]. split; [done|]. split; [|split].
  - apply set_eq. intros s. rewrite !elem_of_dom, !newRT_details_lookup.
    by destruct (decide _).
  - intros s. rewrite !newRT_details_index.
    destruct (decide _); [|done]. by rewrite !withStatus_range.
  - intros Hsame.
    assert (Hdetails : resultDetails (newRT ord1 r T results long)
                       = resultDetails (newRT ord2 r T results long)).
    { apply map_eq. intros s. rewrite !newRT_details_lookup.
      destruct Hsame as [-> | ->]; [done|].
      rewrite !decide_False by (intros [? _]; done). done. }
    destruct (newRT ord1 r T results long), (newRT ord2 r T results long).
    simpl in *. by subst.
Qed.

End NewRTFacts.


Lemma newRT_counts_above_threshold_witness :
  GoMap.index 0
    (main.resultCount
       (main.newRT samples.statuses samples.allForwards main.emptyTable 3
          samples.resultSet true)) 6
  = Z.of_nat (main.occurrences samples.resultSet 6).
Proof.
  apply (proj1 (proj2 (newRT_counts_above_threshold samples.statuses
                         samples.allForwards main.emptyTable 3
                         samples.resultSet true 6
                         ltac:(vm_compute; reflexivity)))).
  reflexivity.
Defined.


(** C2, as stated, fails: with details asked for, the names of the two
    rules whose status is 6 are listed in the order in which the loop over
    the result set meets them, and two calls may meet them in different
    orders. *)
Lemma newRT_details_follow_iteration :
  GoMap.index []
    (main.resultDetails
       (main.newRT samples.statuses samples.allForwards main.emptyTable 3
          samples.resultSet true)) 6 = ["a"; "b"]
  /\ GoMap.index []
       (main.resultDetails
          (main.newRT samples.statuses samples.allBackwards main.emptyTable 3
             samples.resultSet true)) 6 = ["b"; "a"]
  /\ main.newRT samples.statuses samples.allForwards main.emptyTable 3
       samples.resultSet true
     <> main.newRT samples.statuses samples.allBackwards main.emptyTable 3
          samples.resultSet true.
Proof.
  split; [vm_compute; reflexivity|]. split; [vm_compute; reflexivity|].
  intros H.
  apply (f_equal (fun rt => GoMap.index [] (main.resultDetails rt) 6)) in H.
  vm_compute in H. discriminate H.
Qed.

(** * Further properties of the code *)

Set Default Proof Using "Type".

(** ** [trimmedList] *)
Section TrimmedListRoundTrip.
Import GoStrings.
Variables tf trf : string -> string.

Lemma ContainsByte_app (s t : string) (b : ascii) :
  ContainsByte (s +:+ t) b = ContainsByte s b || ContainsByte t b.
Proof.
  induction s as [|c s IH]; [reflexivity|].
  simpl. rewrite IH. now rewrite orb_assoc.
Qed.

Lemma Split_Join (elems : list string) (sep : ascii) :
  elems <> [] ->
  Forall (fun e => ContainsByte e sep = false) elems ->
  Split (Join elems sep) sep = elems.
Proof.
  intros Hne Hall. induction Hall as [|e es He Hes IH]; [contradiction|].
  clear Hne. destruct es as [|e' es'].
  - simpl. clear IH Hes. induction e as [|c e IHe]; [reflexivity|].
    simpl in *. apply orb_false_iff in He as [Hc He]. rewrite Hc.
    now rewrite (IHe He).
  - specialize (IH ltac:(discriminate)).
    change (Join (e :: e' :: es') sep)
      with (e +:+ String sep (Join (e' :: es') sep)).
    clear Hes. remember (Join (e' :: es') sep) as rest eqn:Erest.
    remember (e' :: es') as tail eqn:Etail.
    induction e as [|c e IHe].
    + simpl. rewrite Ascii.eqb_refl. now rewrite IH.
    + simpl in *. apply orb_false_iff in He as [Hc He]. rewrite Hc.
      now rewrite (IHe He).
Qed.

Lemma TrimSpace_fixed (t : string) :
  isASCII t = true ->
  (forall c, firstByte t = Some c -> asciiSpace c = false) ->
  (forall c, lastByte t = Some c -> asciiSpace c = false) ->
  TrimSpace tf trf t = t.
Proof.
  intros Hascii Hfirst Hlast. destruct t as [|c t]; [reflexivity|].
  assert (Hc : isRuneSelf c = false).
  { simpl in Hascii. apply andb_true_iff in Hascii as [Hc _].
    now apply negb_true_iff in Hc. }
  cbn [TrimSpace]. rewrite Hc, (Hfirst c eq_refl).
  unfold lastByte in Hlast.
  assert (Hrev : isASCII (rev (String c t)) = true) by now rewrite isASCII_rev.
  destruct (rev (String c t)) as [|c' r] eqn:E.
  - apply (f_equal rev) in E. rewrite rev_rev in E. discriminate E.
  - simpl in Hrev. apply andb_true_iff in Hrev as [Hc' _].
    apply negb_true_iff in Hc'.
    cbn [trim_stop]. rewrite Hc', (Hlast c' eq_refl).
    rewrite <- E. apply rev_rev.
Qed.

Lemma Trimmed_facts (seg t : string) (b : ascii) :
  Trimmed seg t -> isASCII seg = true ->
  isASCII t = true
  /\ (ContainsByte seg b = false -> ContainsByte t b = false).
Proof.
  intros (pre & post & -> & _) Hascii.
  rewrite !isASCII_app in Hascii.
  apply andb_true_iff in Hascii as [_ Hascii].
  apply andb_true_iff in Hascii as [Ht _].
  split; [exact Ht|].
  rewrite !ContainsByte_app. intros H.
  apply orb_false_iff in H as [_ H]. now apply orb_false_iff in H as [H _].
Qed.

(** X1.  On a string of ASCII bytes, joining the list that [trimmedList]
    returns with commas and passing the result to [trimmedList] again gives
    the same list: its elements hold no comma and no white space at either
    end. *)
Theorem trimmedList_round_trip (s : string) :
  isASCII s = true ->
  main.trimmedList tf trf (Join (main.trimmedList tf trf s) ",")
  = main.trimmedList tf trf s.
Proof.
  intros Hascii. rewrite !trimmedList_map.
  pose proof (Split_not_nil s ",") as Hne.
  pose proof (Split_segments_sep_free s ",") as Hfree.
  pose proof (isASCII_Split s "," Hascii) as Hsegs.
  assert (Hall : Forall (fun seg => isASCII seg = true
                                    /\ ContainsByte seg "," = false)
                        (Split s ",")).
  { rewrite Forall_forall in *. intros seg Hin. split; auto. }
  clear Hfree Hsegs.
  rewrite Split_Join.
  - rewrite map_map. apply map_ext_Forall.
    eapply Forall_impl; [exact Hall|]. intros seg [Hs _]. cbn beta.
    pose proof (TrimSpace_ascii tf trf seg Hs) as Htr.
    destruct (Trimmed_facts _ _ "," Htr Hs) as [Ht _].
    destruct Htr as (pre & post & _ & _ & _ & Hfirst & Hlast).
    now apply TrimSpace_fixed.
  - destruct (Split s ","); [contradiction|discriminate].
  - apply Forall_map. eapply Forall_impl; [exact Hall|].
    intros seg [Hs Hc]. cbn beta.
    pose proof (TrimSpace_ascii tf trf seg Hs) as Htr.
    now apply (Trimmed_facts _ _ "," Htr Hs).
Qed.

End TrimmedListRoundTrip.

(** ** [setLints] *)
Section SetLintsExits.
Import GoRuntime lint main.
Variables tf trf : string -> string.
Context {Regexp : Type}.
Variable regexp_Compile : string -> Regexp + string.
Variable MatchString : Regexp -> string -> bool.
Variable SourceList_FromString : string -> list string + string.
Variable GlobalRegistry : Registry.

Local Abbreviation setLints :=
  (main.setLints tf trf regexp_Compile MatchString SourceList_FromString
     GlobalRegistry).

Lemma Filter_returns (r : Registry) (opts : FilterOptions Regexp) (logged : string) :
  Returns (Filter MatchString r opts) <> Exits logged.
Proof. discriminate. Qed.

(** X2.  [setLints] ends the process, with the message [logged], exactly
    when the name filter is not set or compiles and a source list that is
    set does not parse: the -excludeSources list is read first, and its
    message is the one logged when both lists are wrong. *)
Theorem setLints_exits (fl : Flags) (logged : string) :
  setLints fl = Exits logged <->
  (isSet (nameFilter fl) = false
   \/ exists r, regexp_Compile (nameFilter fl) = inl r)
  /\ ((isSet (excludeSources fl) = true
       /\ exists e, SourceList_FromString (excludeSources fl) = inr e
                    /\ logged = "invalid -excludeSources: " +:+ e)
      \/ ((isSet (excludeSources fl) = false
           \/ exists l, SourceList_FromString (excludeSources fl) = inl l)
          /\ isSet (includeSources fl) = true
          /\ exists e, SourceList_FromString (includeSources fl) = inr e
                       /\ logged = "invalid -includeSources: " +:+ e
                                   +:+ String "010" "")).
Proof.
  unfold main.setLints, setNameFilter, setExcludeSources, setIncludeSources,
    setExcludeNames, setIncludeNames.
  destruct (isSet (nameFilter fl)) eqn:E1;
    destruct (isSet (includeNames fl)) eqn:E2;
    destruct (isSet (excludeNames fl)) eqn:E3;
    destruct (isSet (includeSources fl)) eqn:E4;
    destruct (isSet (excludeSources fl)) eqn:E5;
    destruct (regexp_Compile (nameFilter fl)) as [re|ce] eqn:EC;
    destruct (SourceList_FromString (excludeSources fl)) as [xl|xe] eqn:EX;
    destruct (SourceList_FromString (includeSources fl)) as [il|ie] eqn:EI;
    repeat (progress (cbn [andThen body negb andb];
                      rewrite ?E1, ?E2, ?E3, ?E4, ?E5, ?EC, ?EX, ?EI));
    (split;
     [ intros H; try discriminate H; injection H as <-;
       (split; [first [left; reflexivity | right; eexists; reflexivity]|]);
       first [ left; split; [reflexivity|]; eexists; split; reflexivity
             | right; split;
               [first [left; reflexivity | right; eexists; reflexivity]|];
               split; [reflexivity|]; eexists; split; reflexivity ]
     | intros [Hnf [(Hs & e & He & ->) | (Hx & Hs & e & He & ->)]];
       try discriminate Hs; try discriminate He;
       try (destruct Hnf as [Hnf | [? Hnf]]; discriminate Hnf);
       try (destruct Hx as [Hx | [? Hx]]; discriminate Hx);
       try (injection He as <-; reflexivity) ]).
Qed.

End SetLintsExits.

(** ** [resultsTable.newRT] *)
Section NewRTInvariants.
Import GoMap GoInt lint main.
Variable StatusLabelToLintStatus : gmap string LintStatus.
Local Abbreviation isLevel := (main.isLevel StatusLabelToLintStatus).
Local Abbreviation newRT := (main.newRT StatusLabelToLintStatus).

Lemma newRT_count_any_receiver (ord ord' : RangeOrders) (r r' : resultsTable)
  (T : LintStatus) (results : ResultSet) (long long' : bool) :
  resultCount (newRT ord r T results long)
  = resultCount (newRT ord' r' T results long').
Proof. apply map_eq. intros s. by rewrite !newRT_count_lookup. Qed.

(** X3.  [newRT] does not empty the [sortedLevels] of its receiver: the
    levels it returns are those of the receiver together with the levels of
    a call on [resultsTable{}], sorted.  (On a table that [newRT] returned,
    a second call lists every level twice.) *)
Theorem newRT_keeps_receiver_levels (ord ord' : RangeOrders) (r : resultsTable)
  (T : LintStatus) (results : ResultSet) (long : bool) :
  sortedLevels (newRT ord r T results long)
  = sort_Ints (sortedLevels r
               ++ sortedLevels (newRT ord' emptyTable T results long))
  /\ Sorted Z.le (sortedLevels (newRT ord r T results long)).
Proof.
  split.
  - rewrite !newRT_sortedLevels. apply sort_Ints_perm.
    cbn [sortedLevels emptyTable app]. unfold sort_Ints at 1.
    rewrite merge_sort_Permutation.
    rewrite (newRT_count_any_receiver ord ord' r emptyTable T results long long).
    by rewrite !range_perm.
  - rewrite newRT_sortedLevels. apply Sorted_merge_sort. apply _.
Qed.

(** X4.  With details asked for, the number of rule names listed for a
    status is the count of that status; without, no details are kept. *)
Theorem newRT_details_length (ord : RangeOrders) (r : resultsTable)
  (T : LintStatus) (results : ResultSet) (s : LintStatus) :
  Z.of_nat (size (Results results)) < 2 ^ 63 ->
  Z.of_nat (length (index [] (resultDetails (newRT ord r T results true)) s))
  = index 0 (resultCount (newRT ord r T results true)) s
  /\ resultDetails (newRT ord r T results false) = ∅.
Proof.
  intros Hsize. split.
  - rewrite newRT_details_index.
    destruct (decide (true = true ∧ T < s)) as [[_ Hs]|Hn].
    + rewrite newRT_count_index by done.
      rewrite iter_incr_exact
        by (pose proof (occurrences_le_size results s); lia).
      by rewrite length_fmap, length_withStatus_range.
    + unfold index. rewrite newRT_count_lookup.
      rewrite !decide_False by (intros [? _]; apply Hn; done). done.
  - apply map_eq. intros k. rewrite newRT_details_lookup, lookup_empty.
    by rewrite decide_False by (intros [? _]; done).
Qed.

(** X5.  The fields of the table agree: for a receiver without sorted
    levels, [sortedLevels] holds exactly the keys of [resultCount], and
    every key of [lintLevelsAboveThreshold] and of [resultDetails] is a key
    of [resultCount], so [outputSummary] reads no missing count. *)
Theorem newRT_fields_agree (ord : RangeOrders) (r : resultsTable)
  (T : LintStatus) (results : ResultSet) (long : bool) (s : LintStatus) :
  sortedLevels r = [] ->
  (s ∈ sortedLevels (newRT ord r T results long)
   <-> is_Some (resultCount (newRT ord r T results long) !! s))
  /\ (is_Some (lintLevelsAboveThreshold (newRT ord r T results long) !! s)
      -> is_Some (resultCount (newRT ord r T results long) !! s))
  /\ (is_Some (resultDetails (newRT ord r T results long) !! s)
      -> is_Some (resultCount (newRT ord r T results long) !! s)).
Proof.
  intros Hr. split; [|split].
  - rewrite newRT_sortedLevels_elem, newRT_count_dom, Hr.
    split; [intros [?%elem_of_nil|?]; done|auto].
  - rewrite newRT_levels_lookup, newRT_count_dom.
    destruct (decide (T < s ∧ isLevel s)) as [[??]|]; [auto|by intros [? ?]].
  - rewrite newRT_details_lookup, newRT_count_dom.
    destruct (decide _) as [(? & ? & ?)|]; [auto|by intros [? ?]].
Qed.





End NewRTInvariants.

(** ** [evValidTooLong.RunTest] *)
Section EvValidity.
Import GoTime x509 lints.

Lemma Before_irrefl (t : Time) : Before t t = false.
Proof.
  unfold Before. rewrite !Z.ltb_irrefl. by rewrite andb_false_r.
Qed.

Lemma Before_false_trans (t u v : Time) :
  Before t u = false -> Before u v = false -> Before t v = false.
Proof.
  unfold Before. intros H1 H2.
  apply orb_false_iff in H1 as [H1 H1']. apply orb_false_iff in H2 as [H2 H2'].
  apply Z.ltb_ge in H1, H2. apply orb_false_iff. split.
  - apply Z.ltb_ge. lia.
  - destruct (Z.eqb_spec (sec t) (sec v)) as [Heq|]; [|done].
    assert (sec u = sec t) as Hu by lia.
    rewrite Hu, Z.eqb_refl in H1'. rewrite Hu, Heq, Z.eqb_refl in H2'.
    simpl in *. apply Z.ltb_ge in H1', H2'. apply Z.ltb_ge. lia.
Qed.

(** X8.  The bound of the EV rule is inclusive: a notAfter equal to
    notBefore plus two years and three months passes; and a certificate
    that passes still passes with any notAfter that is not later. *)
Theorem evValidTooLong_boundary (c : Certificate) :
  (NotAfter c = AddDate (NotBefore c) 2 3 0 ->
   evValidTooLong_RunTest c = ({| Result := Pass |}, None))
  /\ (forall c',
        NotBefore c' = NotBefore c ->
        Before (NotAfter c) (NotAfter c') = false ->
        evValidTooLong_RunTest c = ({| Result := Pass |}, None) ->
        evValidTooLong_RunTest c' = ({| Result := Pass |}, None)).
Proof.
  unfold evValidTooLong_RunTest. split.
  - intros ->. by rewrite Before_irrefl.
  - intros c' -> Hle.
    destruct (Before (AddDate (NotBefore c) 2 3 0) (NotAfter c)) eqn:E;
      [discriminate|]. intros _.
    by rewrite (Before_false_trans _ _ _ E Hle).
Qed.

End EvValidity.

(** ** Text: ASCII and printable strings *)
Section TextFacts.
Import GoStrings GoUtf8 GoText.

Lemma length_append (s t : string) :
  String.length (s +:+ t) = (String.length s + String.length t)%nat.
Proof. induction s as [|c s IH]; [done|]. simpl. by rewrite IH. Qed.

Lemma isPrintable_app (s t : string) :
  isPrintable (s +:+ t) = isPrintable s && isPrintable t.
Proof.
  induction s as [|c s IH]; [done|]. simpl. rewrite IH. by rewrite andb_assoc.
Qed.

Lemma printableByte_ascii (c : ascii) :
  printableByte c = true -> isRuneSelf c = false.
Proof.
  unfold printableByte, isRuneSelf, RuneSelf. intros H.
  apply andb_true_iff in H as [_ H]. apply N.leb_le in H.
  apply N.leb_gt. lia.
Qed.

Lemma isPrintable_ascii (s : string) : isPrintable s = true -> isASCII s = true.
Proof.
  induction s as [|c s IH]; [done|]. simpl. intros H.
  apply andb_true_iff in H as [Hc Hs].
  by rewrite (printableByte_ascii c Hc), IH.
Qed.

Lemma runeWidth_ascii (c : ascii) (s : string) :
  isRuneSelf c = false -> runeWidth (String c s) = 1%nat.
Proof.
  unfold isRuneSelf, RuneSelf. intros H. apply N.leb_gt in H.
  unfold runeWidth, sequenceLength.
  assert ((N_of_ascii c <? 194)%N = true) as -> by (apply N.ltb_lt; lia).
  by destruct (acceptRange _).
Qed.

Lemma runesFrom_ascii (steps : nat) (s : string) :
  isASCII s = true -> (String.length s <= steps)%nat ->
  length (runesFrom steps s) = String.length s
  /\ forall n, joinAll (take n (runesFrom steps s)) = takeBytes n s.
Proof.
  revert steps. induction s as [|c s IH]; intros steps Hs Hlen.
  - destruct steps; split; try done; intros n; by destruct n.
  - simpl in Hs. apply andb_true_iff in Hs as [Hc Hs].
    apply negb_true_iff in Hc.
    destruct steps as [|steps]; [simpl in Hlen; lia|].
    cbn [runesFrom]. rewrite (runeWidth_ascii c s Hc).
    cbn [takeBytes dropBytes].
    destruct (IH steps Hs ltac:(simpl in Hlen; lia)) as [IH1 IH2].
    split; [simpl; by rewrite IH1|].
    intros [|n]; [done|]. cbn [take joinAll fold_right takeBytes].
    fold (joinAll (take n (runesFrom steps s))). by rewrite IH2.
Qed.

Lemma runes_ascii_length (s : string) :
  isASCII s = true -> length (runes s) = String.length s.
Proof. intros H. by apply runesFrom_ascii. Qed.

Lemma truncateString_ascii (n : nat) (s : string) :
  isASCII s = true -> truncateString n s = takeBytes n s.
Proof. intros H. unfold truncateString, runes. by apply runesFrom_ascii. Qed.

Lemma RuneCountInString_ascii (s : string) :
  isASCII s = true -> RuneCountInString s = Z.of_nat (String.length s).
Proof. intros H. unfold RuneCountInString. by rewrite runes_ascii_length. Qed.

Lemma takeBytes_length (n : nat) (s : string) :
  String.length (takeBytes n s) = Nat.min n (String.length s).
Proof.
  revert s. induction n as [|n IH]; intros s; [done|].
  destruct s as [|c s]; [done|]. simpl. by rewrite IH.
Qed.

Lemma takeBytes_printable (n : nat) (s : string) :
  isPrintable s = true -> isPrintable (takeBytes n s) = true.
Proof.
  revert s. induction n as [|n IH]; intros s Hs; [done|].
  destruct s as [|c s]; [done|]. simpl in *.
  apply andb_true_iff in Hs as [Hc Hs]. by rewrite Hc, IH.
Qed.

Lemma Repeat_byte (c : ascii) (k : nat) :
  String.length (Repeat (String c "") k) = k
  /\ (printableByte c = true -> isPrintable (Repeat (String c "") k) = true).
Proof.
  induction k as [|k [IH1 IH2]]; [done|]. cbn [Repeat].
  rewrite length_append, isPrintable_app. cbn [String.length isPrintable].
  split; [by rewrite IH1|].
  intros Hc. by rewrite Hc, IH2.
Qed.

Lemma Sprintf_s_printable (n : nat) (s : string) :
  isPrintable s = true ->
  String.length (Sprintf_s n n s) = n
  /\ isPrintable (Sprintf_s n n s) = true.
Proof.
  intros Hs. pose proof (isPrintable_ascii s Hs) as Ha.
  unfold Sprintf_s, padString. rewrite truncateString_ascii by done.
  pose proof (takeBytes_printable n s Hs) as Ht.
  rewrite runes_ascii_length by (by apply isPrintable_ascii).
  destruct (Repeat_byte " " (n - String.length (takeBytes n s))) as [R1 R2].
  split.
  - rewrite length_append, R1, takeBytes_length. lia.
  - rewrite isPrintable_app, R2, Ht; done.
Qed.

Lemma upperByte_printable (c : ascii) :
  printableByte c = true -> printableByte (upperByte c) = true.
Proof.
  destruct c as [[] [] [] [] [] [] [] []]; vm_compute; done.
Qed.

Lemma mapBytes_upper (s : string) :
  isPrintable s = true ->
  String.length (mapBytes upperByte s) = String.length s
  /\ isPrintable (mapBytes upperByte s) = true.
Proof.
  induction s as [|c s IH]; [done|]. simpl. intros H.
  apply andb_true_iff in H as [Hc Hs]. destruct (IH Hs) as [IH1 IH2].
  by rewrite IH1, IH2, upperByte_printable.
Qed.

Lemma ToUpper_printable (slow : string -> string) (s : string) :
  isPrintable s = true ->
  String.length (ToUpper slow s) = String.length s
  /\ isPrintable (ToUpper slow s) = true.
Proof.
  intros H. unfold ToUpper. rewrite (isPrintable_ascii s H).
  by apply mapBytes_upper.
Qed.

Lemma string_of_uint_printable (d : Decimal.uint) :
  isPrintable (NilEmpty.string_of_uint d) = true.
Proof. induction d; simpl; try done. Qed.

Lemma Itoa_printable (i : Z) : isPrintable (Itoa i) = true.
Proof.
  unfold Itoa, NilZero.string_of_int.
  destruct (Z.to_int i) as [d|d]; unfold NilZero.string_of_uint;
    destruct d; simpl; try done; apply string_of_uint_printable.
Qed.

End TextFacts.

(** ** [printTableHeadings] and [printTableBody] *)
Section PrintingFacts.
Import GoRuntime GoStrings GoUtf8 GoText GoMap lint main.

Variable Map_ToUpper : string -> string.
Variable Printf_oddWidth : Z -> string -> string.

Local Abbreviation printTableHeadings := (main.printTableHeadings Map_ToUpper).
Local Abbreviation headingsLoop := (main.headingsLoop Map_ToUpper).
Local Abbreviation printCells := (main.printCells Printf_oddWidth).
Local Abbreviation printTableBody := (main.printTableBody Printf_oddWidth).

(** *** [printTableHeadings] *)
Lemma headingsLoop_widths (n i : Z) (hlengths : list Z) (headings : list string) :
  (headingsLoop n i hlengths headings).2
  = hlengths ++ map (fun h => RuneCountInString h + 1) headings.
Proof.
  revert i hlengths. induction headings as [|h hs IH]; intros i hlengths.
  - simpl. by rewrite app_nil_r.
  - cbn [main.headingsLoop].
    specialize (IH (i + 1) (hlengths ++ [RuneCountInString h + 1])).
    destruct (main.headingsLoop _ _ _ _ hs) as [out' hl'].
    cbn [snd] in *. rewrite IH, <- app_assoc. done.
Qed.

Lemma printTableHeadings_length (headings : list string) :
  length (printTableHeadings headings).2 = length headings.
Proof.
  unfold main.printTableHeadings. rewrite headingsLoop_widths.
  cbn [app]. by rewrite length_map.
Qed.

(** X9.  [printTableHeadings] returns one width per heading, the number
    of runes of the heading plus one, hence at least 1: the count given to
    [strings.Repeat] is never negative and the widths are fit for a
    format. *)
Theorem printTableHeadings_widths (headings : list string) :
  (printTableHeadings headings).2
  = map (fun h => RuneCountInString h + 1) headings
  /\ length (printTableHeadings headings).2 = length headings
  /\ Forall (fun w => 1 <= w) (printTableHeadings headings).2.
Proof.
  unfold main.printTableHeadings. rewrite headingsLoop_widths. cbn [app].
  split; [done|]. split; [by rewrite length_map|].
  apply Forall_forall. intros w Hw. apply list_elem_of_fmap in Hw as [h [-> _]].
  unfold RuneCountInString. lia.
Qed.

(** *** [printTableBody] *)
Lemma printCells_outcome (n : Z) (line : list string) (i : Z) (hlengths : list Z) :
  0 <= i ->
  (printCells n line i hlengths).2
  = if decide (hlengths = [] ∨ (Z.to_nat i + length hlengths ≤ length line)%nat)
    then Returns tt else Panics "index out of range".
Proof.
  revert i. induction hlengths as [|hlen rest IH]; intros i Hi.
  - cbn [main.printCells snd]. by rewrite decide_True by (by left).
  - cbn [main.printCells].
    destruct (line !! Z.to_nat i) as [cell|] eqn:Hcell.
    + specialize (IH (i + 1) ltac:(lia)).
      destruct (main.printCells _ n line (i + 1) rest) as [out r].
      cbn [snd] in *. rewrite IH.
      apply lookup_lt_Some in Hcell.
      apply decide_ext. cbn [length]. rewrite Z2Nat.inj_add by lia.
      destruct rest; cbn [length]; split; intros [H|H];
        try discriminate H; try (right; lia); try (left; done).
    + cbn [snd]. apply lookup_ge_None in Hcell.
      rewrite decide_False; [done|]. cbn [length].
      intros [H|H]; [discriminate H|lia].
Qed.

Lemma printTableBody_returns (hlengths : list Z) (lines : list (list string)) :
  Forall (fun line => (length hlengths <= length line)%nat) lines ->
  (printTableBody hlengths lines).2 = Returns tt.
Proof.
  induction 1 as [|line rest Hline Hrest IH]; [done|].
  cbn [main.printTableBody].
  pose proof (printCells_outcome (Z.of_nat (length hlengths)) line 0 hlengths
                ltac:(lia)) as Hrow.
  rewrite decide_True in Hrow by (right; lia).
  destruct (main.printCells _ _ line 0 hlengths) as [out r].
  cbn [snd] in Hrow. subst r.
  destruct (main.printTableBody _ hlengths rest) as [out' r'].
  by cbn [snd] in *.
Qed.

(** X10.  [printTableBody] returns exactly when no width is given or every
    line has at least as many cells as there are widths; otherwise it
    panics on [line[i]], and it does nothing else. *)
Theorem printTableBody_panics_iff (hlengths : list Z) (lines : list (list string)) :
  ((printTableBody hlengths lines).2 = Returns tt
   <-> Forall (fun line => hlengths = [] \/ (length hlengths <= length line)%nat)
              lines)
  /\ ((printTableBody hlengths lines).2 = Returns tt
      \/ (printTableBody hlengths lines).2 = Panics "index out of range").
Proof.
  induction lines as [|line rest [IH1 IH2]].
  - split; [|by left]. split; [constructor|done].
  - cbn [main.printTableBody].
    pose proof (printCells_outcome (Z.of_nat (length hlengths)) line 0 hlengths
                  ltac:(lia)) as Hrow.
    destruct (main.printCells _ _ line 0 hlengths) as [out r].
    cbn [snd] in Hrow. subst r.
    destruct (decide (hlengths = [] ∨ (Z.to_nat 0 + length hlengths ≤ length line)%nat))
      as [Hok|Hbad].
    + destruct (main.printTableBody _ hlengths rest) as [out' r'].
      cbn [snd] in *. split; [|done].
      rewrite Forall_cons, IH1. split; [|by intros [_ ?]].
      intros Hrest. split; [|done].
      destruct Hok as [?|?]; [by left|right; lia].
    + cbn [snd]. split; [|by right].
      split; [discriminate|]. intros H. apply Forall_cons in H as [H _].
      exfalso. apply Hbad. destruct H as [?|?]; [by left|right; lia].
Qed.

Local Abbreviation Printf_cell := (main.Printf_cell Printf_oddWidth).

Lemma isTextLine_intro (width : nat) (text : string) :
  isPrintable text = true -> String.length text = width ->
  isTextLine width (text +:+ String "010" "").
Proof. intros H1 H2. by exists text. Qed.

Lemma Printf_cell_printable (hlen : Z) (cell : string) :
  0 <= hlen <= 1000000 -> isPrintable cell = true ->
  String.length (Printf_cell hlen cell) = S (Z.to_nat hlen)
  /\ isPrintable (Printf_cell hlen cell) = true.
Proof.
  intros Hh Hc. unfold main.Printf_cell.
  assert ((0 <=? hlen) && (hlen <=? 1000000) = true) as ->.
  { apply andb_true_iff. split; apply Z.leb_le; lia. }
  destruct (Sprintf_s_printable (Z.to_nat hlen) cell Hc) as [H1 H2].
  rewrite length_append, isPrintable_app, H1, H2. done.
Qed.

Lemma printCells_row (n : Z) (line : list string) (i : Z) (hlengths : list Z) :
  0 <= i -> i + Z.of_nat (length hlengths) = n -> hlengths <> [] ->
  Forall (fun hlen => 0 <= hlen <= 1000000) hlengths ->
  (Z.to_nat n <= length line)%nat ->
  Forall (fun cell => isPrintable cell = true) line ->
  exists text,
    printCells n line i hlengths = (text +:+ String "010" "", Returns tt)
    /\ isPrintable text = true
    /\ String.length text
       = (fold_right (fun hlen w => Z.to_nat hlen + 2 + w) 1 hlengths)%nat.
Proof.
  intros Hi Hn Hne Hw Hlen Hcells. revert i Hi Hn.
  induction hlengths as [|hlen rest IH]; intros i Hi Hn; [done|].
  cbn [length] in Hn. apply Forall_cons in Hw as [Hh Hw].
  cbn [main.printCells].
  destruct (line !! Z.to_nat i) as [cell|] eqn:Hcell;
    [|apply lookup_ge_None in Hcell; lia].
  assert (Hp : isPrintable cell = true).
  { rewrite Forall_forall in Hcells. apply Hcells.
    by eapply list_elem_of_lookup_2. }
  destruct (Printf_cell_printable hlen cell Hh Hp) as [Hc1 Hc2].
  destruct rest as [|hlen' rest'].
  - cbn [main.printCells length] in *.
    assert ((i =? n - 1) = true) as -> by (apply Z.eqb_eq; lia).
    exists (Printf_cell hlen cell +:+ " |"). split; [|split].
    + f_equal. rewrite app_empty_r. by rewrite app_assoc'.
    + by rewrite isPrintable_app, Hc2.
    + rewrite length_append, Hc1. cbn. lia.
  - assert ((i =? n - 1) = false) as ->
      by (apply Z.eqb_neq; cbn [length] in Hn; lia).
    destruct (IH ltac:(done) Hw (i + 1) ltac:(lia) ltac:(lia))
      as (text & Hrow & Hpr & Hlen').
    rewrite Hrow.
    exists (Printf_cell hlen cell +:+ " " +:+ text). split; [|split].
    + f_equal. by rewrite !app_assoc'.
    + by rewrite !isPrintable_app, Hc2, Hpr.
    + rewrite !length_append, Hc1, Hlen'. cbn [String.length fold_right]. lia.
Qed.

Lemma printTableBody_rows (hlengths : list Z) (lines : list (list string)) :
  hlengths <> [] ->
  Forall (fun hlen => 0 <= hlen <= 1000000) hlengths ->
  Forall (fun line => (length hlengths <= length line)%nat
                      /\ Forall (fun cell => isPrintable cell = true) line)
         lines ->
  exists rows,
    printTableBody hlengths lines = (joinAll rows, Returns tt)
    /\ Forall (isTextLine (tableWidth hlengths)) rows
    /\ length rows = length lines.
Proof.
  intros Hne Hw. induction 1 as [|line rest [Hlen Hcells] Hrest IH].
  - by exists [].
  - destruct IH as (rows & Hbody & Hrows & Hcount).
    destruct (printCells_row (Z.of_nat (length hlengths)) line 0 hlengths)
      as (text & Hrow & Hpr & Htext); try done; try lia.
    cbn [main.printTableBody]. rewrite Hrow, Hbody.
    exists ((text +:+ String "010" "") :: rows). split; [done|]. split.
    + constructor; [|done]. by apply isTextLine_intro.
    + cbn [length]. by rewrite Hcount.
Qed.

Lemma ruleLine_row (n ii : Z) (hlengths : list Z) :
  ii + Z.of_nat (length hlengths) = n -> hlengths <> [] ->
  Forall (fun hlen => 0 <= hlen) hlengths ->
  exists text,
    main.ruleLine n ii hlengths = text +:+ String "010" ""
    /\ isPrintable text = true
    /\ String.length text
       = (fold_right (fun hlen w => Z.to_nat hlen + 2 + w) 1 hlengths)%nat.
Proof.
  intros Hn Hne Hw. revert ii Hn.
  induction hlengths as [|j rest IH]; intros ii Hn; [done|].
  cbn [length] in Hn. apply Forall_cons in Hw as [Hj Hw].
  cbn [main.ruleLine].
  destruct (Repeat_byte "-" (Z.to_nat (j + 1))) as [R1 R2].
  specialize (R2 eq_refl).
  destruct rest as [|j' rest'].
  - cbn [main.ruleLine length] in *.
    assert ((ii =? n - 1) = true) as -> by (apply Z.eqb_eq; lia).
    exists ("+" +:+ Repeat "-" (Z.to_nat (j + 1)) +:+ "+"). split; [|split].
    + rewrite app_empty_r. by rewrite !app_assoc'.
    + by rewrite !isPrintable_app, R2.
    + rewrite !length_append, R1. cbn. lia.
  - assert ((ii =? n - 1) = false) as ->
      by (apply Z.eqb_neq; cbn [length] in Hn; lia).
    destruct (IH ltac:(done) Hw (ii + 1) ltac:(lia)) as (text & Hrow & Hpr & Hlen).
    rewrite Hrow.
    exists ("+" +:+ Repeat "-" (Z.to_nat (j + 1)) +:+ text). split; [|split].
    + by rewrite !app_assoc'.
    + by rewrite !isPrintable_app, R2, Hpr.
    + rewrite !length_append, R1, Hlen. cbn [String.length fold_right]. lia.
Qed.

Lemma headingsLoop_rows (n i : Z) (hlengths : list Z) (headings : list string) :
  i + Z.of_nat (length headings) = n -> headings <> [] ->
  Forall (fun h => isPrintable h = true) headings ->
  exists text,
    headingsLoop n i hlengths headings
    = (text +:+ "|" +:+ String "010" ""
       +:+ main.ruleLine n 0
             (hlengths ++ map (fun h => RuneCountInString h + 1) headings),
       hlengths ++ map (fun h => RuneCountInString h + 1) headings)
    /\ isPrintable text = true
    /\ String.length text
       = (fold_right (fun h w => String.length h + 3 + w) 0 headings)%nat.
Proof.
  intros Hn Hne Hp. revert i hlengths Hn.
  induction headings as [|h rest IH]; intros i hlengths Hn; [done|].
  cbn [length] in Hn. apply Forall_cons in Hp as [Hh Hp].
  destruct (ToUpper_printable Map_ToUpper h Hh) as [U1 U2].
  cbn [main.headingsLoop].
  destruct rest as [|h' rest'].
  - cbn [main.headingsLoop length map] in *.
    assert ((i =? n - 1) = true) as -> by (apply Z.eqb_eq; lia).
    exists ("| " +:+ ToUpper Map_ToUpper h +:+ " "). split; [|split].
    + f_equal. rewrite app_empty_r. by rewrite !app_assoc'.
    + by rewrite !isPrintable_app, U2.
    + rewrite !length_append, U1. cbn. lia.
  - assert ((i =? n - 1) = false) as ->
      by (apply Z.eqb_neq; cbn [length] in Hn; lia).
    destruct (IH ltac:(done) Hp (i + 1)
                (hlengths ++ [RuneCountInString h + 1]) ltac:(lia))
      as (text & Hrow & Hpr & Hlen).
    rewrite Hrow. rewrite <- !app_assoc. cbn [app map].
    exists ("| " +:+ ToUpper Map_ToUpper h +:+ " " +:+ text). split; [|split].
    + f_equal. rewrite app_empty_r. by rewrite !app_assoc'.
    + by rewrite !isPrintable_app, U2, Hpr.
    + rewrite !length_append, U1, Hlen. cbn [String.length fold_right]. lia.
Qed.

Lemma table_rows (headings : list string) (lines : list (list string)) :
  headings <> [] ->
  Forall (fun h => isPrintable h = true
                   /\ Z.of_nat (String.length h) < 1000000) headings ->
  Forall (fun line => (length headings <= length line)%nat
                      /\ Forall (fun cell => isPrintable cell = true) line)
         lines ->
  exists rows,
    (printTableHeadings headings).1
    +:+ (printTableBody (printTableHeadings headings).2 lines).1
    = joinAll rows
    /\ Forall (isTextLine (tableWidth (printTableHeadings headings).2)) rows
    /\ length rows = (2 + length lines)%nat.
Proof.
  intros Hne Hhs Hlines.
  assert (Hp : Forall (fun h => isPrintable h = true) headings).
  { eapply Forall_impl; [exact Hhs|]. by intros h [? _]. }
  unfold main.printTableHeadings.
  destruct (headingsLoop_rows (Z.of_nat (length headings)) 0 [] headings)
    as (text & Hhead & Hpr & Hlen); try done; try lia.
  cbn [app] in Hhead. rewrite Hhead. cbn [fst snd].
  set (hl := map (fun h => RuneCountInString h + 1) headings) in *.
  assert (Hhl : hl = map (fun h => Z.of_nat (String.length h) + 1) headings).
  { subst hl. apply map_ext_Forall. eapply Forall_impl; [exact Hp|].
    intros h Hh. cbn beta. by rewrite RuneCountInString_ascii
      by (by apply isPrintable_ascii). }
  assert (Hhl_ne : hl <> []).
  { subst hl. destruct headings; [done|discriminate]. }
  assert (Hhl_len : length hl = length headings) by (subst hl; by rewrite length_map).
  assert (Hhl_w : Forall (fun hlen => 0 <= hlen <= 1000000) hl).
  { rewrite Hhl. apply Forall_map. eapply Forall_impl; [exact Hhs|].
    intros h [_ Hh]. cbn beta. lia. }
  assert (Hwidth : (fold_right (fun h w => String.length h + 3 + w) 0 headings + 1
                    = tableWidth hl)%nat).
  { rewrite Hhl. unfold tableWidth. clear. induction headings as [|h hs IH];
      [done|]. cbn [map fold_right]. rewrite <- IH. lia. }
  destruct (ruleLine_row (Z.of_nat (length headings)) 0 hl)
    as (rule & Hrule & Hrpr & Hrlen); try lia; try done.
  { eapply Forall_impl; [exact Hhl_w|]. intros ? ?. cbn beta in *. lia. }
  destruct (printTableBody_rows hl lines Hhl_ne Hhl_w) as (rows & Hbody & Hrows & Hcount).
  { eapply Forall_impl; [exact Hlines|]. intros line [? ?]. split; [lia|done]. }
  rewrite Hbody. cbn [fst snd].
  exists (((text +:+ "|") +:+ String "010" "")
          :: (rule +:+ String "010" "") :: rows).
  split; [|split].
  - cbn [joinAll fold_right]. fold (joinAll rows). rewrite Hrule.
    by rewrite !app_assoc'.
  - constructor; [|constructor; [|done]].
    + apply isTextLine_intro; [by rewrite isPrintable_app, Hpr|].
      rewrite length_append, Hlen. cbn [String.length]. lia.
    + apply isTextLine_intro; [done|]. by rewrite Hrlen.
  - cbn [length]. by rewrite Hcount.
Qed.

(** X11.  For headings and cells of printable ASCII bytes and lines with
    a cell for every heading, the table is aligned: what the two functions
    write is a heading line, a rule line and one line per line of the body,
    all of the same width, and [printTableBody] returns. *)
Theorem table_lines_aligned (headings : list string) (lines : list (list string)) :
  headings <> [] ->
  Forall (fun h => isPrintable h = true
                   /\ Z.of_nat (String.length h) < 1000000) headings ->
  Forall (fun line => (length headings <= length line)%nat
                      /\ Forall (fun cell => isPrintable cell = true) line)
         lines ->
  (printTableBody (printTableHeadings headings).2 lines).2 = Returns tt
  /\ exists rows,
       (printTableHeadings headings).1
       +:+ (printTableBody (printTableHeadings headings).2 lines).1
       = joinAll rows
       /\ Forall (isTextLine (tableWidth (printTableHeadings headings).2)) rows
       /\ length rows = (2 + length lines)%nat.
Proof.
  intros Hne Hhs Hlines. split.
  - apply printTableBody_returns. rewrite printTableHeadings_length.
    eapply Forall_impl; [exact Hlines|]. by intros line [? _].
  - by apply table_rows.
Qed.

End PrintingFacts.

(** ** The lines of [outputSummary] *)
Section SummaryLines.
Import GoRuntime GoStrings GoUtf8 GoText GoMap lint main.

Variable LintStatus_String : LintStatus -> string.

Local Abbreviation longLines := (main.longLines LintStatus_String).
Local Abbreviation levelStep := (main.levelStep LintStatus_String).
Local Abbreviation detailStep := (main.detailStep LintStatus_String).
Local Abbreviation levelRows := (main.levelRows LintStatus_String).
Local Abbreviation shortLines := (main.shortLines LintStatus_String).

(** The loop over the details once the label of the level has been shown. *)
Lemma details_loop_shown (rt : resultsTable) (level : Z) (details : list string)
  (st : summaryState) (found : bool) :
  olsl st = LintStatus_String level ->
  let acc := fold_left (detailStep rt level) details (st, found) in
  olsl acc.1 = LintStatus_String level
  /\ lines acc.1 = lines st ++ map blankRow details
  /\ acc.2 = found || negb (lint.isEmpty details).
Proof.
  cbv zeta.
  revert st found. induction details as [|d ds IH]; intros st found Hst.
  - cbn. rewrite app_nil_r, orb_false_r. done.
  - cbn [fold_left]. unfold main.detailStep at 2 4 6. cbn [fst].
    rewrite Hst, String.eqb_refl. cbn [negb olsl lsl rescount lines].
    match goal with |- context [fold_left _ ds (?st', true)] =>
      destruct (IH st' true) as (H1 & H2 & H3); [by rewrite <- Hst|] end.
    cbv zeta in *. rewrite H1, H2, H3. cbn [lines map lint.isEmpty negb].
    rewrite <- app_assoc, orb_true_r. done.
Qed.

Lemma details_loop (rt : resultsTable) (level : Z) (details : list string)
  (st : summaryState) :
  let acc := fold_left (detailStep rt level) details (st, false) in
  match details with
  | [] => acc = (st, false)
  | d :: ds =>
      olsl acc.1 = LintStatus_String level
      /\ acc.2 = true
      /\ lines acc.1
         = lines st
           ++ (if String.eqb (LintStatus_String level) (olsl st)
               then blankRow d
               else [LintStatus_String level;
                     Itoa (index 0 (resultCount rt) level); d])
              :: map blankRow ds
  end.
Proof.
  cbv zeta. destruct details as [|d ds]; [done|].
  cbn [fold_left]. unfold main.detailStep at 2 4 6. cbn [fst].
  destruct (String.eqb (LintStatus_String level) (olsl st)) eqn:E;
    cbn [negb olsl lsl rescount lines];
    match goal with |- context [fold_left _ ds (?st', true)] =>
      destruct (details_loop_shown rt level ds st' true) as (H1 & H2 & H3);
        [cbn [olsl]; try done; by apply String.eqb_eq in E|] end;
    cbv zeta in *; rewrite H1, H2, H3; cbn [lines];
    rewrite <- app_assoc; done.
Qed.

Lemma levelStep_spec (rt : resultsTable) (st : summaryState) (level : Z) :
  olsl (levelStep rt st level)
  = (if lint.isEmpty (index [] (resultDetails rt) level) then olsl st
     else LintStatus_String level)
  /\ lines (levelStep rt st level)
     = lines st
       ++ match index [] (resultDetails rt) level with
          | [] => [[LintStatus_String level;
                    Itoa (index 0 (resultCount rt) level); " - "]]
          | d :: ds =>
              (if String.eqb (LintStatus_String level) (olsl st)
               then blankRow d
               else [LintStatus_String level;
                     Itoa (index 0 (resultCount rt) level); d])
              :: map blankRow ds
          end.
Proof.
  unfold main.levelStep.
  pose proof (details_loop rt level (index [] (resultDetails rt) level) st) as H.
  cbv zeta in H.
  destruct (index [] (resultDetails rt) level) as [|d ds].
  - rewrite H. cbn. done.
  - destruct H as (H1 & H2 & H3). rewrite H2. cbn [lint.isEmpty]. done.
Qed.

Lemma levels_loop_cells (rt : resultsTable) (levels : list Z) (st : summaryState) :
  let st' := fold_left (levelStep rt) levels st in
  map (fun row => nth 2 row "") (lines st')
  = map (fun row => nth 2 row "") (lines st)
    ++ concat (map (detailCells rt) levels)
  /\ (Forall (fun row => length row = 3%nat) (lines st) ->
      Forall (fun row => length row = 3%nat) (lines st')).
Proof.
  revert st. induction levels as [|level ls IH]; intros st.
  - cbn. by rewrite app_nil_r.
  - cbn [fold_left map concat].
    cbv zeta. destruct (IH (levelStep rt st level)) as [IH1 IH2]. cbv zeta in *.
    destruct (levelStep_spec rt st level) as [_ Hl].
    rewrite IH1, Hl, map_app, <- app_assoc. split.
    + f_equal. f_equal. unfold main.detailCells.
      destruct (index [] (resultDetails rt) level) as [|d ds]; [done|].
      cbn [map]. f_equal.
      * by destruct (String.eqb _ _).
      * rewrite map_map. by rewrite map_id.
    + intros Hst. apply IH2. rewrite Hl. apply Forall_app. split; [done|].
      destruct (index [] (resultDetails rt) level) as [|d ds].
      * by repeat constructor.
      * constructor; [by destruct (String.eqb _ _)|].
        apply Forall_map. by apply Forall_true.
Qed.

Lemma levels_loop_rows (rt : resultsTable) (levels : list Z) (st : summaryState) :
  NoDup (map LintStatus_String levels) ->
  olsl st ∉ map LintStatus_String levels ->
  lines (fold_left (levelStep rt) levels st)
  = lines st ++ concat (map (levelRows rt) levels).
Proof.
  revert st. induction levels as [|level ls IH]; intros st Hnd Hst.
  - cbn. by rewrite app_nil_r.
  - cbn [fold_left map concat] in *.
    apply NoDup_cons in Hnd as [Hlevel Hnd].
    apply not_elem_of_cons in Hst as [Hne Hst].
    destruct (levelStep_spec rt st level) as [Ho Hl].
    rewrite IH; [|done|].
    + rewrite Hl, <- app_assoc. f_equal. f_equal. unfold main.levelRows.
      destruct (index [] (resultDetails rt) level) as [|d ds]; [done|].
      assert (String.eqb (LintStatus_String level) (olsl st) = false) as ->.
      { apply String.eqb_neq. congruence. }
      done.
    + rewrite Ho. by destruct (lint.isEmpty _).
Qed.

Lemma shortLines_loop (rt : resultsTable) (levels : list Z)
  (acc : list (list string)) :
  fold_left (fun lines level =>
               lines ++ [[LintStatus_String level;
                          Itoa (index 0 (resultCount rt) level)]])
            levels acc
  = acc ++ map (fun level => [LintStatus_String level;
                              Itoa (index 0 (resultCount rt) level)]) levels.
Proof.
  revert acc. induction levels as [|l ls IH]; intros acc; simpl.
  - by rewrite app_nil_r.
  - by rewrite IH, <- app_assoc.
Qed.

Lemma shortLines_map (rt : resultsTable) :
  shortLines rt
  = map (fun level => [LintStatus_String level;
                       Itoa (index 0 (resultCount rt) level)]) (sortedLevels rt).
Proof. unfold main.shortLines. by rewrite shortLines_loop. Qed.

Lemma longLines_cells (rt : resultsTable) :
  map (fun row => nth 2 row "") (longLines rt)
  = concat (map (detailCells rt) (sortedLevels rt))
  /\ Forall (fun row => length row = 3%nat) (longLines rt).
Proof.
  unfold main.longLines.
  destruct (levels_loop_cells rt (sortedLevels rt)
              {| olsl := ""; lsl := ""; rescount := ""; lines := [] |})
    as [H1 H2].
  cbv zeta in *. split; [exact H1|]. apply H2. constructor.
Qed.

(** X14.  The lines of the long form have three cells each; their third
    cells are, level after level in the order of [sortedLevels], the
    details of the level, or [" - "] for a level without details. *)
Theorem longLines_third_column (rt : resultsTable) :
  map (fun row => nth 2 row "") (longLines rt)
  = concat (map (detailCells rt) (sortedLevels rt))
  /\ Forall (fun row => length row = 3%nat) (longLines rt)
  /\ length (longLines rt)
     = length (concat (map (detailCells rt) (sortedLevels rt))).
Proof.
  destruct (longLines_cells rt) as [Hcells Hthree].
  split; [exact Hcells|]. split; [exact Hthree|].
  by rewrite <- Hcells, length_map.
Qed.

(** X15.  When the labels of the sorted levels are distinct and none is
    empty, the first line of a level shows its label and its count and the
    following lines of the level leave both blank. *)
Theorem longLines_rows (rt : resultsTable) :
  NoDup (map LintStatus_String (sortedLevels rt)) ->
  "" ∉ map LintStatus_String (sortedLevels rt) ->
  longLines rt = concat (map (levelRows rt) (sortedLevels rt)).
Proof.
  intros Hnd Hne. unfold main.longLines.
  by rewrite levels_loop_rows.
Qed.

Lemma levels_loop_extends (rt : resultsTable) (levels : list Z) (st : summaryState) :
  exists more, lines (fold_left (levelStep rt) levels st) = lines st ++ more.
Proof.
  revert st. induction levels as [|level ls IH]; intros st.
  - exists []. cbn. by rewrite app_nil_r.
  - cbn [fold_left]. destruct (IH (levelStep rt st level)) as [more Hmore].
    destruct (levelStep_spec rt st level) as [_ Hl].
    rewrite Hmore, Hl, <- app_assoc. eauto.
Qed.

(** X16.  [olsl] starts as the empty string: when the label of the first
    level is empty and the level has details, its first line shows neither
    the label nor the count. *)
Theorem longLines_empty_label (rt : resultsTable) (level : Z) (rest : list Z)
  (d : string) (ds : list string) :
  sortedLevels rt = level :: rest ->
  LintStatus_String level = "" ->
  index [] (resultDetails rt) level = d :: ds ->
  exists rows, longLines rt = [""; ""; d] :: rows.
Proof.
  intros Hlevels Hlabel Hdetails. unfold main.longLines.
  rewrite Hlevels. cbn [fold_left].
  match goal with |- context [fold_left _ rest ?st] =>
    destruct (levels_loop_extends rt rest st) as [more Hmore] end.
  rewrite Hmore.
  match goal with |- context [levelStep rt ?st level] =>
    destruct (levelStep_spec rt st level) as [_ Hl] end.
  rewrite Hl, Hdetails, Hlabel. cbn. eauto.
Qed.

Lemma levels_loop_printable (rt : resultsTable) (levels : list Z) (st : summaryState) :
  (forall s, isPrintable (LintStatus_String s) = true) ->
  (forall level, Forall (fun d => isPrintable d = true)
                        (index [] (resultDetails rt) level)) ->
  Forall (Forall (fun cell => isPrintable cell = true)) (lines st) ->
  Forall (Forall (fun cell => isPrintable cell = true))
         (lines (fold_left (levelStep rt) levels st)).
Proof.
  intros Hlabel Hdet. revert st.
  induction levels as [|level ls IH]; intros st Hst; [done|].
  cbn [fold_left]. apply IH.
  destruct (levelStep_spec rt st level) as [_ Hl].
  rewrite Hl. apply Forall_app. split; [done|].
  specialize (Hdet level).
  destruct (index [] (resultDetails rt) level) as [|d ds].
  - repeat constructor; [done|apply Itoa_printable].
  - apply Forall_cons in Hdet as [Hd Hds]. constructor.
    + destruct (String.eqb _ _); repeat constructor; try done.
      apply Itoa_printable.
    + apply Forall_map. eapply Forall_impl; [exact Hds|].
      intros x Hx. by repeat constructor.
Qed.

End SummaryLines.

(** ** [outputSummary] *)
Section OutputSummaryFacts.
Import GoRuntime GoStrings GoUtf8 GoText GoMap GoInt lint main.

Variable StatusLabelToLintStatus : gmap string LintStatus.
Variable Pass : LintStatus.
Variable LintStatus_String : LintStatus -> string.
Variable Map_ToUpper : string -> string.
Variable Printf_oddWidth : Z -> string -> string.

Local Abbreviation newRT := (main.newRT StatusLabelToLintStatus).
Local Abbreviation summaryTable :=
  (main.outputSummary_table StatusLabelToLintStatus Pass).
Local Abbreviation printTableHeadings := (main.printTableHeadings Map_ToUpper).
Local Abbreviation printTableBody := (main.printTableBody Printf_oddWidth).
Local Abbreviation longLines := (main.longLines LintStatus_String).
Local Abbreviation shortLines := (main.shortLines LintStatus_String).
Local Abbreviation levelStep := (main.levelStep LintStatus_String).
Local Abbreviation levelRows := (main.levelRows LintStatus_String).
Local Abbreviation outputSummary :=
  (main.outputSummary StatusLabelToLintStatus Pass LintStatus_String
     Map_ToUpper Printf_oddWidth).

Lemma outputSummary_unfold (ord : RangeOrders) (results : ResultSet) (long : bool) :
  outputSummary ord results long
  = ((printTableHeadings (if long then headingsLong else headingsShort)).1
     +:+ (printTableBody
            (printTableHeadings (if long then headingsLong else headingsShort)).2
            (if long then longLines (summaryTable ord results long)
             else shortLines (summaryTable ord results long))).1,
     (printTableBody
        (printTableHeadings (if long then headingsLong else headingsShort)).2
        (if long then longLines (summaryTable ord results long)
         else shortLines (summaryTable ord results long))).2).
Proof.
  unfold main.outputSummary. destruct long.
  - destruct (main.printTableHeadings _ headingsLong) as [outH hl]. cbn [fst snd].
    by destruct (main.printTableBody _ hl _).
  - destruct (main.printTableHeadings _ headingsShort) as [outH hl]. cbn [fst snd].
    by destruct (main.printTableBody _ hl _).
Qed.

(** X12.  [outputSummary] never panics: in both forms every line it
    builds has a cell for each heading. *)
Theorem outputSummary_returns (ord : RangeOrders) (results : ResultSet)
  (long : bool) :
  (outputSummary ord results long).2 = Returns tt.
Proof.
  rewrite outputSummary_unfold. cbn [snd].
  apply printTableBody_returns. rewrite printTableHeadings_length.
  destruct long.
  - destruct (longLines_cells LintStatus_String (summaryTable ord results true))
      as [_ H].
    eapply Forall_impl; [exact H|]. intros row ->. cbn. lia.
  - rewrite shortLines_map. apply Forall_map, Forall_true.
    intros level. cbn. lia.
Qed.

(** X13.  The short form has one line per sorted level, in that order,
    with the label of the level and the number of results that have
    exactly that status. *)
Theorem outputSummary_short_rows (ord : RangeOrders) (results : ResultSet) :
  Z.of_nat (size (Results results)) < 2 ^ 63 ->
  shortLines (summaryTable ord results false)
  = map (fun level => [LintStatus_String level;
                       Itoa (Z.of_nat (occurrences results level))])
        (sortedLevels (summaryTable ord results false)).
Proof.
  intros Hsize. rewrite shortLines_map. apply map_ext_Forall.
  apply Forall_forall. intros level Hin. unfold main.outputSummary_table in *.
  apply newRT_sortedLevels_elem in Hin as [Hin%elem_of_nil|[Hlt _]]; [done|].
  rewrite newRT_count_index by done.
  rewrite iter_incr_exact
    by (pose proof (occurrences_le_size results level); lia).
  done.
Qed.

Lemma summaryTable_details_printable (ord : RangeOrders) (results : ResultSet)
  (long : bool) (level : Z) :
  (forall name res,
     Results results !! name = Some res -> isPrintable name = true) ->
  Forall (fun d => isPrintable d = true)
         (index [] (resultDetails (summaryTable ord results long)) level).
Proof.
  intros Hnames. unfold main.outputSummary_table.
  rewrite newRT_details_index. destruct (decide _); [|constructor].
  apply Forall_forall. intros name Hin.
  apply elem_of_withStatus_names in Hin as (res & Hres & _). eauto.
Qed.

(** X17.  When the labels and the rule names are printable ASCII, what
    [outputSummary] writes is a table of lines of equal width, 79 columns
    in the long form and 25 in the short form: the heading line, the rule
    line, and one line per detail or empty level (long form) or per level
    (short form). *)
Theorem outputSummary_aligned (ord : RangeOrders) (results : ResultSet)
  (long : bool) :
  (forall s, isPrintable (LintStatus_String s) = true) ->
  (forall name res,
     Results results !! name = Some res -> isPrintable name = true) ->
  exists rows,
    (outputSummary ord results long).1 = joinAll rows
    /\ Forall (isTextLine (if long then 79 else 25)) rows
    /\ length rows
       = (2 + if long
              then length (concat (map (detailCells (summaryTable ord results long))
                                       (sortedLevels (summaryTable ord results long))))
              else length (sortedLevels (summaryTable ord results long)))%nat.
Proof.
  intros Hlabel Hnames. rewrite outputSummary_unfold. cbn [fst].
  destruct long.
  - destruct (longLines_cells LintStatus_String (summaryTable ord results true))
      as [Hcells Hthree].
    destruct (table_rows Map_ToUpper Printf_oddWidth headingsLong
                (longLines (summaryTable ord results true)))
      as (rows & Hout & Hrows & Hcount).
    + discriminate.
    + repeat constructor.
    + apply Forall_forall. intros row Hrow. split.
      * rewrite Forall_forall in Hthree. rewrite (Hthree row Hrow). cbn. lia.
      * revert row Hrow. apply Forall_forall. unfold main.longLines.
        apply levels_loop_printable; [done| |constructor].
        intros level. by apply summaryTable_details_printable.
    + exists rows. split; [done|]. split; [exact Hrows|].
      rewrite Hcount, <- Hcells, length_map. done.
  - destruct (table_rows Map_ToUpper Printf_oddWidth headingsShort
                (shortLines (summaryTable ord results false)))
      as (rows & Hout & Hrows & Hcount).
    + discriminate.
    + repeat constructor.
    + rewrite shortLines_map. apply Forall_map, Forall_true. intros level.
      split; [cbn; lia|]. repeat constructor; [done|apply Itoa_printable].
    + exists rows. split; [done|]. split; [exact Hrows|].
      rewrite Hcount, shortLines_map, length_map. done.
Qed.

End OutputSummaryFacts.

(** ** The properties on the sample inputs *)
Lemma samples_labels_printable (s : lint.LintStatus) :
  GoText.isPrintable (samples.statusLabel s) = true.
Proof.
  unfold samples.statusLabel.
  destruct (Z.to_nat s) as [|[|[|[|[|[|[|[|n]]]]]]]]; try reflexivity.
  destruct n; reflexivity.
Qed.

Lemma samples_names_printable (name : string) (res : lint.LintResult) :
  lint.Results samples.resultSet !! name = Some res ->
  GoText.isPrintable name = true.
Proof.
  intros H. apply elem_of_map_to_list in H.
  assert (Hall : Forall (fun e : string * lint.LintResult =>
                           GoText.isPrintable e.1 = true)
                        (map_to_list (lint.Results samples.resultSet))).
  { vm_compute map_to_list.
    repeat (apply List.Forall_cons; [reflexivity|]). apply List.Forall_nil. }
  rewrite Forall_forall in Hall. exact (Hall _ H).
Qed.

Lemma samples_size_small :
  Z.of_nat (size (lint.Results samples.resultSet)) < 2 ^ 63.
Proof. vm_compute. reflexivity. Qed.

Lemma trimmedList_round_trip_witness :
  main.trimmedList id id
    (GoStrings.Join (main.trimmedList id id " a , b ,c") ",")
  = main.trimmedList id id " a , b ,c".
Proof. apply (trimmedList_round_trip id id " a , b ,c"). reflexivity. Defined.

Lemma newRT_details_length_witness :
  Z.of_nat
    (length (GoMap.index []
               (main.resultDetails
                  (main.newRT samples.statuses samples.allForwards
                     main.emptyTable 3 samples.resultSet true)) 6))
  = GoMap.index 0
      (main.resultCount
         (main.newRT samples.statuses samples.allForwards main.emptyTable 3
            samples.resultSet true)) 6.
Proof.
  apply (proj1 (newRT_details_length samples.statuses samples.allForwards
                  main.emptyTable 3 samples.resultSet 6 samples_size_small)).
Defined.

Lemma newRT_fields_agree_witness :
  6 ∈ main.sortedLevels
        (main.newRT samples.statuses samples.allBackwards main.emptyTable 3
           samples.resultSet true)
  <-> is_Some
        (main.resultCount
           (main.newRT samples.statuses samples.allBackwards main.emptyTable 3
              samples.resultSet true) !! 6).
Proof.
  apply (proj1 (newRT_fields_agree samples.statuses samples.allBackwards
                  main.emptyTable 3 samples.resultSet true 6 eq_refl)).
Defined.



Lemma table_lines_aligned_witness :
  (main.printTableBody samples.plainCell
     (main.printTableHeadings id ["Level"; "# occurrences"]).2
     [["warn"; "1"]; ["error"; "2"]]).2 = GoRuntime.Returns tt
  /\ exists rows,
       (main.printTableHeadings id ["Level"; "# occurrences"]).1
       +:+ (main.printTableBody samples.plainCell
              (main.printTableHeadings id ["Level"; "# occurrences"]).2
              [["warn"; "1"]; ["error"; "2"]]).1
       = GoText.joinAll rows
       /\ Forall (GoText.isTextLine
                    (main.tableWidth
                       (main.printTableHeadings id ["Level"; "# occurrences"]).2))
                 rows
       /\ length rows = (2 + 2)%nat.
Proof.
  apply (table_lines_aligned id samples.plainCell ["Level"; "# occurrences"]
           [["warn"; "1"]; ["error"; "2"]]).
  - discriminate.
  - repeat (apply List.Forall_cons; [split; reflexivity|]). apply List.Forall_nil.
  - repeat (apply List.Forall_cons;
            [split; [simpl; lia|
                     repeat (apply List.Forall_cons; [reflexivity|]);
                     apply List.Forall_nil]|]).
    apply List.Forall_nil.
Defined.

Lemma outputSummary_short_rows_witness :
  main.shortLines samples.statusLabel
    (main.outputSummary_table samples.statuses 3 samples.allForwards
       samples.resultSet false)
  = map (fun level => [samples.statusLabel level;
                       GoText.Itoa (Z.of_nat (main.occurrences samples.resultSet level))])
        (main.sortedLevels
           (main.outputSummary_table samples.statuses 3 samples.allForwards
              samples.resultSet false)).
Proof.
  apply (outputSummary_short_rows samples.statuses 3 samples.statusLabel
           samples.allForwards samples.resultSet samples_size_small).
Defined.

Lemma longLines_rows_witness :
  main.longLines samples.statusLabel
    (main.newRT samples.statuses samples.allForwards main.emptyTable 3
       samples.resultSet true)
  = concat
      (map (main.levelRows samples.statusLabel
              (main.newRT samples.statuses samples.allForwards main.emptyTable
                 3 samples.resultSet true))
           (main.sortedLevels
              (main.newRT samples.statuses samples.allForwards main.emptyTable
                 3 samples.resultSet true))).
Proof.
  apply (longLines_rows samples.statusLabel
           (main.newRT samples.statuses samples.allForwards main.emptyTable 3
              samples.resultSet true)).
  - apply (bool_decide_unpack _). vm_compute. exact I.
  - apply (bool_decide_unpack _). vm_compute. exact I.
Defined.

Lemma longLines_empty_label_witness :
  exists rows,
    main.longLines samples.unlabelled
      (main.newRT samples.statuses samples.allForwards main.emptyTable 5
         samples.resultSet true)
    = [""; ""; "a"] :: rows.
Proof.
  apply (longLines_empty_label samples.unlabelled
           (main.newRT samples.statuses samples.allForwards main.emptyTable 5
              samples.resultSet true) 6 [7] "a" ["b"]).
  - vm_compute. reflexivity.
  - reflexivity.
  - vm_compute. reflexivity.
Defined.

Lemma outputSummary_aligned_witness :
  exists rows,
    (main.outputSummary samples.statuses 3 samples.statusLabel id
       samples.plainCell samples.allForwards samples.resultSet true).1
    = GoText.joinAll rows
    /\ Forall (GoText.isTextLine 79) rows
    /\ length rows = 7%nat.
Proof.
  destruct (outputSummary_aligned samples.statuses 3 samples.statusLabel id
              samples.plainCell samples.allForwards samples.resultSet true
              samples_labels_printable samples_names_printable)
    as (rows & Hout & Hrows & Hcount).
  exists rows. split; [exact Hout|]. split; [exact Hrows|].
  rewrite Hcount. vm_compute. reflexivity.
Defined.
